(** * fastembed: model acquisition and caching

    A shallow embedding of [fastembed/common/model_management.py]:
    [locate_model_file] and the class methods of [ModelManagement]
    ([download_file_from_gcs], [download_files_from_huggingface],
    [decompress_to_cache], [retrieve_model_gcs], [download_model]), and of
    [TextEmbedding] in [fastembed/text/text_embedding.py].

    The Python code is effectful: it reads and writes a directory tree,
    talks to an HTTP server, unpacks archives, logs and raises exceptions.
    The embedding makes this explicit:
    - the cache that [ModelManagement] writes is a tree of nodes, a
      directory being a finite map from entry names to nodes;
    - a [world] carries the file system, the list of file-system states
      that were observable before every mutation, the HTTP requests made so
      far, the log and the standard output;
    - a Python function is a state transformer that returns either a value
      or a raised exception ([M]);
    - [tarfile] extraction is followed down to the system calls it makes,
      on the path names it builds from the members' names, [..] and
      absolute names included;
    - the directories [locate_model_file] searches may hold symbolic
      links, as the snapshots of [huggingface_hub] do: they are trees of
      their own kind, read with the path resolution of the operating
      system, and [Path.rglob] is followed down to the selectors of
      [pathlib];
    - the contents of what the module calls is left open ([requests],
      the bytes [tarfile] reads, [huggingface_hub], the name matching of
      [fnmatch], the builtin [int]): these are interfaces given as type
      classes. *)

From Stdlib Require Import ZArith Ascii String Strings.Byte.
From stdpp Require Import gmap strings list fin_maps.

(** ** Exceptions *)

(** The exception classes the module can meet, with Python's class
    hierarchy.  [EnvironmentError] and [IOError] are aliases of [OSError]
    in Python 3. *)
Inductive exn_class :=
  | BaseException | KeyboardInterrupt | Exception
  | OSError | FileNotFoundError | FileExistsError | NotADirectoryError
  | IsADirectoryError | PermissionError | ConnectionError
  | RequestException | HTTPError | HfHubHTTPError | RepositoryNotFoundError
  | ValueError | AssertionError | EOFError
  | TarError | ReadError
  | LookupError | KeyError | TypeError | RuntimeError | MemoryError
  | NotImplementedError.

#[global] Instance exn_class_eq_dec : EqDecision exn_class.
Proof. solve_decision. Defined.

Definition EnvironmentError : exn_class := OSError.

(** The direct base class. *)
Definition base (c : exn_class) : option exn_class :=
  match c with
  | BaseException => None
  | KeyboardInterrupt => Some BaseException
  | Exception => Some BaseException
  | OSError => Some Exception
  | FileNotFoundError | FileExistsError | NotADirectoryError
  | IsADirectoryError | PermissionError | ConnectionError => Some OSError
  | RequestException => Some OSError
  | HTTPError => Some RequestException
  | HfHubHTTPError => Some HTTPError
  | RepositoryNotFoundError => Some HfHubHTTPError
  | ValueError | AssertionError | EOFError | TarError | LookupError
  | TypeError | RuntimeError | MemoryError => Some Exception
  | ReadError => Some TarError
  | KeyError => Some LookupError
  | NotImplementedError => Some RuntimeError
  end.

Fixpoint issubclass_upto (fuel : nat) (c d : exn_class) : bool :=
  if decide (c = d) then true
  else match fuel, base c with
       | S fuel', Some b => issubclass_upto fuel' b d
       | _, _ => false
       end.

(** The hierarchy above is at most six classes deep. *)
Definition issubclass (c d : exn_class) : bool := issubclass_upto 6 c d.

Record exn := Exn { exn_cls : exn_class; exn_msg : string }.

(** [except (c1, c2, ...)] catches [e] when its class derives from one of
    the listed classes. *)
Definition caught_by (cs : list exn_class) (e : exn) : bool :=
  existsb (issubclass (exn_cls e)) cs.

Inductive result (A : Type) :=
  | Ok (a : A)
  | Raise (e : exn).
Arguments Ok {A} a.
Arguments Raise {A} e.

(** ** Strings *)

(** [needle in hay] on Python strings. *)
Fixpoint str_in (needle hay : string) : bool :=
  String.prefix needle hay
  || match hay with
     | EmptyString => false
     | String _ hay' => str_in needle hay'
     end.

(** [s.endswith(suffix)]. *)
Fixpoint endswith (s suffix : string) : bool :=
  String.eqb s suffix
  || match s with
     | EmptyString => false
     | String _ s' => endswith s' suffix
     end.

(** [sep.join(l)]. *)
Fixpoint join (sep : string) (l : list string) : string :=
  match l with
  | [] => ""
  | [x] => x
  | x :: l' => x +:+ sep +:+ join sep l'
  end.

(** [s.split(c)] for a one-character separator: never the empty list. *)
Fixpoint split (c : ascii) (s : string) : list string :=
  match s with
  | EmptyString => [""]
  | String a s' =>
      if Ascii.eqb a c then "" :: split c s'
      else match split c s' with
           | h :: t => String a h :: t
           | [] => [String a ""]
           end
  end.

(** ** Paths and the file system *)

(** A path is the list of its components below the root; paths are
    absolute and normalised (no [.], no [..], no empty component). *)
Definition path := list string.

(** [str(path)]. *)
Definition render (p : path) : string :=
  match p with
  | [] => "/"
  | _ => foldr (λ c acc, "/" +:+ c +:+ acc) "" p
  end.

#[local] Set Warnings "-register-all".

(** A node is a regular file with its bytes, a directory, or something
    that is neither (a socket, a FIFO, a device). *)
Inductive node :=
  | File (data : list byte)
  | Dir (children : gmap string node)
  | Other.

Inductive errno :=
  | ENOENT | ENOTDIR | EEXIST | EISDIR | ENOTEMPTY | EINVAL | EBUSY.

Definition strerror (e : errno) : string :=
  match e with
  | ENOENT => "[Errno 2] No such file or directory"
  | ENOTDIR => "[Errno 20] Not a directory"
  | EEXIST => "[Errno 17] File exists"
  | EISDIR => "[Errno 21] Is a directory"
  | ENOTEMPTY => "[Errno 39] Directory not empty"
  | EINVAL => "[Errno 22] Invalid argument"
  | EBUSY => "[Errno 16] Device or resource busy"
  end.

(** The subclass of [OSError] Python raises for an error number. *)
Definition oserror_class (e : errno) : exn_class :=
  match e with
  | ENOENT => FileNotFoundError
  | ENOTDIR => NotADirectoryError
  | EEXIST => FileExistsError
  | EISDIR => IsADirectoryError
  | ENOTEMPTY | EINVAL | EBUSY => OSError
  end.

Definition oserror (e : errno) (p : path) : exn :=
  Exn (oserror_class e) (strerror e +:+ ": '" +:+ render p +:+ "'").

(** What is at path [p] below node [n], if anything. *)
Fixpoint stat (p : path) (n : node) : option node :=
  match p with
  | [] => Some n
  | x :: p' =>
      match n with
      | Dir m => match m !! x with Some c => stat p' c | None => None end
      | _ => None
      end
  end.

Definition exists_ (p : path) (fs : node) : bool :=
  match stat p fs with Some _ => true | None => false end.

Definition is_dir (p : path) (fs : node) : bool :=
  match stat p fs with Some (Dir _) => true | _ => false end.

Definition is_file (p : path) (fs : node) : bool :=
  match stat p fs with Some (File _) => true | _ => false end.

(** The entries of a directory, in listing order; nothing for a path that
    is not a directory ([list(path.glob("*"))]). *)
Definition listdir (p : path) (fs : node) : list string :=
  match stat p fs with
  | Some (Dir m) => (map_to_list m).*1
  | _ => []
  end.

Definition set_entry (x : string) (o : option node) (m : gmap string node)
  : gmap string node :=
  match o with
  | Some c => <[x:=c]> m
  | None => delete x m
  end.

(** The one way the tree changes: the directory entry named by [p] is
    replaced by what [g] makes of it.  The directories above it must exist;
    the root is not an entry of any directory. *)
Fixpoint at_entry (p : path) (g : option node → errno + option node)
    (n : node) : errno + node :=
  match n with
  | Dir m =>
      match p with
      | [] => inl EBUSY
      | x :: p' =>
          match p' with
          | [] =>
              match g (m !! x) with
              | inr o => inr (Dir (set_entry x o m))
              | inl e => inl e
              end
          | _ :: _ =>
              match m !! x with
              | Some c =>
                  match at_entry p' g c with
                  | inr c' => inr (Dir (<[x:=c']> m))
                  | inl e => inl e
                  end
              | None => inl ENOENT
              end
          end
      end
  | _ => inl ENOTDIR
  end.

(** [os.mkdir]. *)
Definition os_mkdir (p : path) : node → errno + node :=
  at_entry p (λ o, match o with
                   | None => inr (Some (Dir ∅))
                   | Some _ => inl EEXIST
                   end).

(** [open(p, "wb")]: create the file or truncate it. *)
Definition os_open_wb (p : path) : node → errno + node :=
  at_entry p (λ o, match o with
                   | Some (Dir _) => inl EISDIR
                   | Some Other => inr (Some Other)
                   | _ => inr (Some (File []))
                   end).

(** [file.write(data)] on the file opened at [p]. *)
Definition os_write (p : path) (data : list byte) : node → errno + node :=
  at_entry p (λ o, match o with
                   | Some (File d) => inr (Some (File (d ++ data)))
                   | Some Other => inr (Some Other)
                   | Some (Dir _) => inl EISDIR
                   | None => inl ENOENT
                   end).

(** [os.unlink]. *)
Definition os_unlink (p : path) : node → errno + node :=
  at_entry p (λ o, match o with
                   | None => inl ENOENT
                   | Some (Dir _) => inl EISDIR
                   | Some _ => inr None
                   end).

(** [shutil.rmtree]: the whole directory goes; anything else is an error. *)
Definition os_rmtree (p : path) : node → errno + node :=
  at_entry p (λ o, match o with
                   | None => inl ENOENT
                   | Some (Dir _) => inr None
                   | Some _ => inl ENOTDIR
                   end).

Definition empty_dir (m : gmap string node) : bool :=
  match map_to_list m with [] => true | _ :: _ => false end.

(** What POSIX [rename] accepts at the destination for a source [s]. *)
Definition rename_onto (s : node) (o : option node) : errno + option node :=
  match s, o with
  | _, None => inr (Some s)
  | Dir _, Some (Dir m) => if empty_dir m then inr (Some s) else inl ENOTEMPTY
  | Dir _, Some _ => inl ENOTDIR
  | _, Some (Dir _) => inl EISDIR
  | _, Some _ => inr (Some s)
  end.

(** [os.rename] (POSIX): one indivisible change of the tree.  Renaming a
    path onto itself does nothing; a directory cannot move below itself. *)
Definition os_rename (src dst : path) (fs : node) : errno + node :=
  match src, stat src fs with
  | [], _ => inl EBUSY
  | _, None => inl ENOENT
  | _, Some s =>
      if bool_decide (src `prefix_of` dst) then
        if bool_decide (dst `prefix_of` src) then inr fs else inl EINVAL
      else
        match at_entry dst (rename_onto s) fs with
        | inr fs1 => at_entry src (λ _, inr None) fs1
        | inl e => inl e
        end
  end.

(** [Path.mkdir(parents=True, exist_ok=True)]: missing directories are
    created from the top; a non-directory on the way is an error
    ([FileExistsError] at the path itself, [NotADirectoryError] above). *)
Fixpoint mkdir_parents (p : path) (n : node) : errno + node :=
  match n with
  | Dir m =>
      match p with
      | [] => inr n
      | x :: p' =>
          match mkdir_parents p' (default (Dir ∅) (m !! x)) with
          | inr c' => inr (Dir (<[x:=c']> m))
          | inl e => inl e
          end
      end
  | _ => inl (match p with [] => EEXIST | _ :: _ => ENOTDIR end)
  end.

(** ** Path names as they are written *)

(** [tarfile] builds the path names it hands to the operating system
    from the destination and the name of an archive member, and does not
    normalise them: a component of a member's name may be [..] or [.].
    A written path name is a list of steps from the root. *)
Inductive step :=
  | Into (name : string)
  | Up
  | Stay.

Definition step_of (component : string) : step :=
  if String.eqb component ".." then Up
  else if String.eqb component "." then Stay
  else Into component.

Definition step_name (s : step) : string :=
  match s with
  | Into x => x
  | Up => ".."
  | Stay => "."
  end.

(** The path name as text, for messages. *)
Definition written (raw : list step) : path := step_name <$> raw.

(** The components of a path string: what stands between slashes;
    repeated and trailing slashes separate nothing. *)
Definition components (s : string) : list string :=
  List.filter (λ x, negb (String.eqb x "")) (split "/" s).

(** Path resolution in a tree without links: every step is taken from
    a directory, [..] leads to the directory above (the root is above
    itself), [.] stays.  The outcome is the normalised path of the last
    step, which need not exist. *)
Fixpoint resolve_from (cur : path) (raw : list step) (fs : node)
  : errno + path :=
  match raw with
  | [] => inr cur
  | s :: raw' =>
      match stat cur fs with
      | Some (Dir _) =>
          resolve_from (match s with
                        | Into x => cur ++ [x]
                        | Up => removelast cur
                        | Stay => cur
                        end) raw' fs
      | Some _ => inl ENOTDIR
      | None => inl ENOENT
      end
  end.

Definition resolve (raw : list step) (fs : node) : errno + path :=
  resolve_from [] raw fs.

(** [os.path.exists] on a written path name: any error is [False]. *)
Definition os_path_exists (raw : list step) (fs : node) : bool :=
  match resolve raw fs with
  | inr p => exists_ p fs
  | inl _ => false
  end.

(** A system call [op] on a written path name.  The empty path name
    names nothing; when the name leads to the root, the call fails with
    the error [at_root] it has for a directory that is there. *)
Definition at_path (raw : list step) (op : path → node → errno + node)
    (at_root : errno) (fs : node) : errno + node :=
  match raw with
  | [] => inl ENOENT
  | _ :: _ =>
      match resolve raw fs with
      | inr [] => inl at_root
      | inr p => op p fs
      | inl e => inl e
      end
  end.

(** ** The world and the monad of effects *)

(** [observed] lists, newest first, the file-system states that were in
    place before each change: together with [fs] these are all the states
    an observer (or an interruption) can have met. *)
Record world := World {
  fs : node;
  observed : list node;
  requests : list string;
  log : list string;
  stdout : list string
}.

Definition M (A : Type) : Type := world → result A * world.

Definition ret {A} (a : A) : M A := λ w, (Ok a, w).

Definition raise {A} (e : exn) : M A := λ w, (Raise e, w).

Definition bind {A B} (c : M A) (k : A → M B) : M B :=
  λ w, match c w with
       | (Ok a, w1) => k a w1
       | (Raise e, w1) => (Raise e, w1)
       end.

Notation "'let*' x ':=' c 'in' k" := (bind c (λ x, k))
  (at level 10, x pattern, c at level 100, k at level 200).

(** [try: c  except Exception as e: handler(e)]. *)
Definition try_except {A} (c : M A) (handler : exn → M A) : M A :=
  λ w, match c w with
       | (Ok a, w1) => (Ok a, w1)
       | (Raise e, w1) => handler e w1
       end.

Definition get_fs : M node := λ w, (Ok (fs w), w).

Definition commit (fs' : node) (w : world) : world :=
  {| fs := fs'; observed := fs w :: observed w; requests := requests w;
     log := log w; stdout := stdout w |}.

(** A file-system operation on path [p]: it changes the tree in one step
    or raises the [OSError] of its error number. *)
Definition syscall (p : path) (op : node → errno + node) : M unit :=
  λ w, match op (fs w) with
       | inr fs' => (Ok tt, commit fs' w)
       | inl e => (Raise (oserror e p), w)
       end.

Definition print (line : string) : M unit :=
  λ w, (Ok tt, {| fs := fs w; observed := observed w; requests := requests w;
                  log := log w; stdout := stdout w ++ [line] |}).

Definition logger_error (line : string) : M unit :=
  λ w, (Ok tt, {| fs := fs w; observed := observed w; requests := requests w;
                  log := log w ++ [line]; stdout := stdout w |}).

(** ** The libraries the module calls *)

(** [fnmatch name pat]: does the name of a directory entry match a
    pattern component with wildcards (the regular expression
    [fnmatch.translate] makes of it). *)
Class Fnmatch := fnmatch : string → string → bool.

(** The builtin [int] on a string; [None] stands for [ValueError]. *)
Class PyInt := py_int : string → option Z.

(** What [requests.get(url, stream=True)] hands back: the status, the
    [content-length] header if there is one, and the body as
    [iter_content] delivers it, chunk by chunk, possibly ending in a
    transport error. *)
Record response := Response {
  status_code : Z;
  content_length : option string;
  body : list (list byte);
  body_error : option exn
}.

(** The server side: the answer to a request may depend on the requests
    made before; the request itself can fail. *)
Class Transport := http_get : list string → string → result response.

(** A member of an archive under the name the archive gives it, which
    [tarfile] takes as it is: the name may be absolute, and it may step
    out of the destination with [..].  The archives in question pack
    directories and regular files. *)
Inductive tar_member :=
  | TarDir (name : string)
  | TarFile (name : string) (data : list byte).

(** What [tarfile] makes of the bytes of an archive: the members it can
    extract, in order, and the exception that stops it, if any (a file
    that is no archive at all has no member and a [ReadError]). *)
Record tar_image := TarImage {
  members : list tar_member;
  failure : option exn
}.

Class Tarfile := tar_read : list byte → tar_image.

(** [huggingface_hub.snapshot_download(repo_id, ignore_patterns,
    cache_dir)]: any effect on the world, and a directory or an
    exception. *)
Class Hub := snapshot_download : string → list string → path → M path.

(** ** The directories that are searched *)

(** [locate_model_file] reads a model directory and writes nothing.
    The directory may be one [retrieve_model_gcs] extracted, or a
    snapshot of [huggingface_hub], whose entries are symbolic links into
    a store of blobs.  A tree that is searched has regular files,
    directories, other entries (sockets, FIFOs, devices) and symbolic
    links with the target text they were made with. *)
Inductive tree :=
  | Regular (data : list byte)
  | Folder (entries : gmap string tree)
  | Special
  | Symlink (target : string).

(** [os.lstat]: what is at [p] itself; no link is followed and no
    component is special. *)
Fixpoint lstat (p : path) (t : tree) : option tree :=
  match p with
  | [] => Some t
  | x :: p' =>
      match t with
      | Folder m => match m !! x with Some c => lstat p' c | None => None end
      | _ => None
      end
  end.

(** Path resolution with links: [cur] is the directory reached so far,
    [rest] the components to go.  A component [.] stays, [..] leads to
    the directory above, the name of a link is replaced by the
    components of its target, taken from the root when the target is
    absolute and from [cur] otherwise.  [fuel] bounds the number of
    links followed; with none left the resolution fails ([ELOOP]), as it
    does at a missing entry ([ENOENT]) and at a step from something that
    is no directory ([ENOTDIR]). *)
Fixpoint follow (fuel : nat) (root : tree) (cur : path) (rest : list string)
    {struct fuel} : option tree :=
  match fuel with
  | 0 => None
  | S fuel' =>
      (fix go (cur : path) (rest : list string) {struct rest} : option tree :=
         match rest with
         | [] => lstat cur root
         | x :: rest' =>
             match lstat cur root with
             | Some (Folder m) =>
                 if String.eqb x "." then go cur rest'
                 else if String.eqb x ".." then go (removelast cur) rest'
                 else
                   match m !! x with
                   | Some (Symlink target) =>
                       follow fuel' root
                         (if String.prefix "/" target then [] else cur)
                         (components target ++ rest')
                   | Some _ => go (cur ++ [x]) rest'
                   | None => None
                   end
             | _ => None
             end
         end) cur rest
  end.

(** The number of links the operating system follows in one resolution
    (Linux). *)
Definition MAXSYMLINKS : nat := 40.

(** [os.stat]: what [p] leads to, links followed; [None] stands for the
    errors [Path.exists], [Path.is_dir] and [Path.is_file] turn into
    [False]. *)
Definition os_stat (p : path) (root : tree) : option tree :=
  follow (S MAXSYMLINKS) root [] p.

Definition Path_exists (p : path) (root : tree) : bool :=
  match os_stat p root with Some _ => true | None => false end.

Definition Path_is_dir (p : path) (root : tree) : bool :=
  match os_stat p root with Some (Folder _) => true | _ => false end.

Definition Path_is_file (p : path) (root : tree) : bool :=
  match os_stat p root with Some (Regular _) => true | _ => false end.

(** [os.scandir]: the entries of the directory [p] leads to, in listing
    order. *)
Definition scandir (p : path) (root : tree) : list (string * tree) :=
  match os_stat p root with
  | Some (Folder m) => map_to_list m
  | _ => []
  end.

(** ** Path.rglob *)

(** The selectors of [pathlib]: one per component of the pattern, each
    with the selector of the components that follow.  [dironly] is set
    when components follow. *)
Inductive selector :=
  | Terminating
  | Precise (name : string) (dironly : bool) (successor : selector)
  | Wildcard (pat : string) (dironly : bool) (successor : selector)
  | RecursiveWildcard (successor : selector).

Definition is_wildcard_pattern (pat : string) : bool :=
  str_in "*" pat || str_in "?" pat || str_in "[" pat.

Definition invalid_pattern : exn :=
  Exn ValueError "Invalid pattern: '**' can only be an entire path component".

Definition non_relative_pattern : exn :=
  Exn NotImplementedError "Non-relative patterns are unsupported".

(** [_make_selector]. *)
Fixpoint make_selector (pattern_parts : list string) : result selector :=
  match pattern_parts with
  | [] => Ok Terminating
  | pat :: child_parts =>
      if String.eqb pat "" then Ok Terminating
      else if String.eqb pat "**" then
        match make_selector child_parts with
        | Ok successor => Ok (RecursiveWildcard successor)
        | Raise e => Raise e
        end
      else if str_in "**" pat then Raise invalid_pattern
      else
        let dironly := match child_parts with [] => false | _ :: _ => true end in
        match make_selector child_parts with
        | Ok successor =>
            Ok (if is_wildcard_pattern pat
                then Wildcard pat dironly successor
                else Precise pat dironly successor)
        | Raise e => Raise e
        end
  end.

(** The parts [parse_parts] makes of a relative pattern: its components
    without the empty ones and without [.]; a pattern that ends in a
    slash gets an empty last part. *)
Definition pattern_parts (pattern : string) : list string :=
  List.filter (λ x, negb (String.eqb x "") && negb (String.eqb x "."))
    (split "/" pattern)
  ++ (if endswith pattern "/" then [""] else []).

(** What [rglob] makes of its pattern before it looks at any file. *)
Definition rglob_selector (pattern : string) : result selector :=
  if String.prefix "/" pattern then Raise non_relative_pattern
  else make_selector ("**" :: pattern_parts pattern).

(** The directories [_iterate_directories] yields below a tree, as
    paths relative to it: the tree itself, then, entry by entry, what is
    below each entry that is a directory and not a link.  The selectors
    start it from directories only: [select_from] checks the directory
    it is given, and a part of the pattern that others follow selects
    directories ([dironly]). *)
Fixpoint folders_below (t : tree) : list path :=
  match t with
  | Folder m =>
      [] :: map_fold (λ x c acc, ((x ::.) <$> folders_below c) ++ acc) [] m
  | _ => []
  end.

Definition iterate_directories (parent_path : path) (root : tree)
  : list path :=
  match os_stat parent_path root with
  | Some t => (parent_path ++.) <$> folders_below t
  | None => []
  end.

(** The paths of a list without repetition, the first occurrence of each
    being kept. *)
Fixpoint not_yet_yielded (yielded l : list path) : list path :=
  match l with
  | [] => []
  | p :: l' =>
      if bool_decide (p ∈ yielded) then not_yet_yielded yielded l'
      else p :: not_yet_yielded (p :: yielded) l'
  end.

(** [selector._select_from(parent_path)]. *)
Fixpoint select_from `{Fnmatch} (sel : selector) (parent_path : path)
    (root : tree) : list path :=
  match sel with
  | Terminating => [parent_path]
  | Precise name dironly successor =>
      let path := parent_path ++ [name] in
      if (if dironly then Path_is_dir path root else Path_exists path root)
      then select_from successor path root
      else []
  | Wildcard pat dironly successor =>
      flat_map
        (λ entry,
           let path := parent_path ++ [entry.1] in
           if (negb dironly || Path_is_dir path root) && fnmatch entry.1 pat
           then select_from successor path root
           else [])
        (scandir parent_path root)
  | RecursiveWildcard successor =>
      not_yet_yielded []
        (flat_map (λ starting_point, select_from successor starting_point root)
           (iterate_directories parent_path root))
  end.

(** [Path.rglob(pattern)]: the pattern is refused or made into
    selectors before anything is read; nothing is yielded from what is
    no directory. *)
Definition rglob `{Fnmatch} (self : path) (pattern : string) (root : tree)
  : result (list path) :=
  match rglob_selector pattern with
  | Ok sel =>
      Ok (if Path_is_dir self root then select_from sel self root else [])
  | Raise e => Raise e
  end.

(** ** locate_model_file *)

Fixpoint locate_loop `{Fnmatch} (model_dir : path) (not_found : exn)
    (file_names : list string) (root : tree) : result path :=
  match file_names with
  | [] => Raise not_found
  | file_name :: rest =>
      match rglob model_dir file_name root with
      | Raise e => Raise e
      | Ok paths =>
          let file_paths := List.filter (λ p, Path_is_file p root) paths in
          match file_paths with
          | p :: _ => Ok p
          | [] => locate_loop model_dir not_found rest root
          end
      end
  end.

Definition not_a_directory (model_dir : path) : exn :=
  Exn ValueError
    ("Provided model path '" +:+ render model_dir +:+ "' is not a directory.").

Definition could_not_find (model_dir : path) (file_names : list string) : exn :=
  Exn ValueError
    ("Could not find either of " +:+ join ", " file_names +:+ " in "
     +:+ render model_dir).

Definition locate_model_file `{Fnmatch} (model_dir : path)
    (file_names : list string) (root : tree) : result path :=
  if negb (Path_is_dir model_dir root) then Raise (not_a_directory model_dir)
  else locate_loop model_dir (could_not_find model_dir file_names)
         file_names root.

(** ** ModelManagement.download_file_from_gcs *)

(** [requests.get(url, stream=True)]: the request is recorded whether it
    is answered or fails. *)
Definition requests_get `{Transport} (url : string) : M response :=
  λ w, (http_get (requests w) url,
        {| fs := fs w; observed := observed w;
           requests := requests w ++ [url]; log := log w;
           stdout := stdout w |}).

Definition permission_denied : exn :=
  Exn PermissionError
    ("Authentication Error: You do not have permission to access this resource. "
     +:+ "Please check your credentials.").

(** [int(response.headers.get("content-length", 0))]. *)
Definition total_size `{PyInt} (r : response) : M Z :=
  match content_length r with
  | None => ret 0%Z
  | Some s =>
      match py_int s with
      | Some z => ret z
      | None =>
          raise (Exn ValueError
                   ("invalid literal for int() with base 10: '" +:+ s +:+ "'"))
      end
  end.

(** The loop over [response.iter_content]: every non-empty chunk is
    written as it arrives. *)
Fixpoint write_chunks (output_path : path) (chunks : list (list byte))
  : M unit :=
  match chunks with
  | [] => ret tt
  | chunk :: rest =>
      let* _ := match chunk with
                | [] => ret tt
                | _ :: _ => syscall output_path (os_write output_path chunk)
                end in
      write_chunks output_path rest
  end.

(** The progress bar only draws on the terminal: [show_progress] has no
    effect on the world. *)
Definition download_file_from_gcs `{Transport, PyInt} (url : string)
    (output_path : path) (show_progress : bool) : M path :=
  let* root := get_fs in
  if exists_ output_path root then ret output_path
  else
    let* response := requests_get url in
    if (status_code response =? 403)%Z then raise permission_denied
    else
      let* total_size_in_bytes := total_size response in
      let* _ :=
        if (total_size_in_bytes =? 0)%Z then
          print ("Warning: Content-length header is missing or zero in the response from "
                 +:+ url +:+ ".")
        else ret tt in
      let* _ := syscall output_path (os_open_wb output_path) in
      let* _ := write_chunks output_path (body response) in
      let* _ := match body_error response with
                | Some e => raise e
                | None => ret tt
                end in
      ret output_path.

(** ** ModelManagement.download_files_from_huggingface *)

Definition download_files_from_huggingface `{Hub} (hf_source_repo : string)
    (cache_dir : path) : M path :=
  snapshot_download hf_source_repo ["model.safetensors"; "pytorch_model.bin"]
    cache_dir.

(** ** ModelManagement.decompress_to_cache *)

Definition member_name (mem : tar_member) : string :=
  match mem with
  | TarDir name => name
  | TarFile name _ => name
  end.

(** [os.path.join(path, tarinfo.name)]: an absolute name stands for
    itself, any other is taken below the destination. *)
Definition target_path (dest : path) (name : string) : list step :=
  (if String.prefix "/" name then [] else Into <$> dest)
  ++ (step_of <$> components name).

(** [try: c  except FileExistsError: pass]. *)
Definition pass_file_exists (c : M unit) : M unit :=
  try_except c (λ e, if issubclass (exn_cls e) FileExistsError
                     then ret tt else raise e).

(** [os.makedirs(name)], on the name read from its last step backwards:
    when what is above the last step does not exist it is made first,
    and a [FileExistsError] from there is let pass; then the directory
    itself is made with [os.mkdir], unless its last step is [.] and the
    directories above were just made. *)
Fixpoint makedirs_rev (rname : list step) : M unit :=
  match rname with
  | [] => raise (oserror EEXIST [])
  | tail :: rhead =>
      let name := rev (tail :: rhead) in
      let head := rev rhead in
      let* root := get_fs in
      let* made :=
        if os_path_exists head root then ret false
        else
          let* _ := pass_file_exists (makedirs_rev rhead) in
          ret (match tail with Stay => true | _ => false end) in
      if made then ret tt
      else syscall (written name) (at_path name os_mkdir EEXIST)
  end.

Definition os_makedirs (name : list step) : M unit := makedirs_rev (rev name).

(** [TarFile._extract_member]: the directories above the target are
    made if they do not exist; then a directory member is made with
    [os.mkdir], an existing entry being let pass ([makedir]), and a file
    member is opened for writing and written ([makefile]). *)
Definition extract_member (dest : path) (mem : tar_member) : M unit :=
  let targetpath := target_path dest (member_name mem) in
  let upperdirs := removelast targetpath in
  let* root := get_fs in
  let* _ := if os_path_exists upperdirs root then ret tt
            else os_makedirs upperdirs in
  match mem with
  | TarDir _ =>
      pass_file_exists
        (syscall (written targetpath) (at_path targetpath os_mkdir EEXIST))
  | TarFile _ data =>
      let* _ := syscall (written targetpath)
                  (at_path targetpath os_open_wb EISDIR) in
      match data with
      | [] => ret tt
      | _ :: _ =>
          syscall (written targetpath)
            (at_path targetpath (λ p, os_write p data) EISDIR)
      end
  end.

Fixpoint extract_members (dest : path) (mems : list tar_member) : M unit :=
  match mems with
  | [] => ret tt
  | mem :: rest =>
      let* _ := extract_member dest mem in
      extract_members dest rest
  end.

(** [with tarfile.open(targz_path, "r:gz") as tar: tar.extractall(path)]:
    the members the archive yields are extracted in order, then the
    archive's failure, if it has one, is raised. *)
Definition tar_extractall `{Tarfile} (targz_path dest : path) : M unit :=
  let* root := get_fs in
  match stat targz_path root with
  | Some (File bytes) =>
      let image := tar_read bytes in
      let* _ := extract_members dest (members image) in
      match failure image with
      | Some e => raise e
      | None => ret tt
      end
  | Some (Dir _) => raise (oserror EISDIR targz_path)
  | Some Other => raise (Exn ReadError "file could not be opened successfully")
  | None => raise (oserror ENOENT targz_path)
  end.

Definition decompress_error (targz_path : path) (e : exn) : exn :=
  Exn ValueError
    ("An error occurred while decompressing " +:+ render targz_path +:+ ": "
     +:+ exn_msg e).

Definition decompress_to_cache `{Tarfile} (targz_path cache_dir : path)
  : M path :=
  let* root := get_fs in
  if negb (is_file targz_path root) then
    raise (Exn ValueError
             (render targz_path +:+ " does not exist or is not a file."))
  else if negb (endswith (render targz_path) ".tar.gz") then
    raise (Exn ValueError (render targz_path +:+ " is not a .tar.gz file."))
  else
    let* _ :=
      try_except (tar_extractall targz_path cache_dir)
        (λ e,
           if issubclass (exn_cls e) TarError then
             let* _ := if str_in "tmp" (render cache_dir)
                       then syscall cache_dir (os_rmtree cache_dir)
                       else ret tt in
             raise (decompress_error targz_path e)
           else raise e) in
    ret cache_dir.

(** ** ModelManagement.retrieve_model_gcs *)

(** [f"fast-{model_name.split('/')[-1]}"]. *)
Definition fast_model_name (model_name : string) : string :=
  "fast-" +:+ default "" (last (split "/" model_name)).

Definition retrieve_model_gcs `{Transport, PyInt, Tarfile}
    (model_name source_url : string) (cache_dir : path) : M path :=
  let fast := fast_model_name model_name in
  let cache_tmp_dir := cache_dir ++ ["tmp"] in
  let model_tmp_dir := cache_tmp_dir ++ [fast] in
  let model_dir := cache_dir ++ [fast] in
  let* root := get_fs in
  if exists_ model_dir root && (0 <? length (listdir model_dir root))%nat
  then ret model_dir
  else
    let* _ := if exists_ model_tmp_dir root
              then syscall model_tmp_dir (os_rmtree model_tmp_dir)
              else ret tt in
    let* _ := syscall cache_tmp_dir (mkdir_parents cache_tmp_dir) in
    let model_tar_gz := cache_dir ++ [fast +:+ ".tar.gz"] in
    let* _ := download_file_from_gcs source_url model_tar_gz true in
    let* _ := decompress_to_cache model_tar_gz cache_tmp_dir in
    let* root := get_fs in
    if negb (exists_ model_tmp_dir root) then
      raise (Exn AssertionError
               ("Could not find " +:+ render model_tmp_dir +:+ " in "
                +:+ render cache_tmp_dir))
    else
      let* _ := syscall model_tar_gz (os_unlink model_tar_gz) in
      let* _ := syscall model_tmp_dir (os_rename model_tmp_dir model_dir) in
      ret model_dir.

(** ** ModelManagement.download_model *)

(** The model description: the [model] name and the optional [sources]
    dictionary. *)
Record model_description := ModelDescription {
  model : string;
  sources : option (gmap string string)
}.

(** Truth value of an optional string: [None] and [""] are false. *)
Definition truthy (o : option string) : bool :=
  match o with
  | Some s => negb (String.eqb s "")
  | None => false
  end.

Definition no_source (m : model_description) : exn :=
  Exn ValueError
    ("Could not download model " +:+ model m +:+ " from any source.").

Definition fallback_message (e : exn) : string :=
  "Could not download model from HuggingFace: " +:+ exn_msg e
  +:+ "Falling back to other sources.".

Definition download_model `{Transport, PyInt, Tarfile, Hub}
    (m : model_description) (cache_dir : path) : M path :=
  let hf_source := default ∅ (sources m) !! "hf" in
  let url_source := default ∅ (sources m) !! "url" in
  let* returned :=
    if truthy hf_source then
      try_except
        (let* p := download_files_from_huggingface (default "" hf_source)
                     cache_dir in
         ret (Some p))
        (λ e,
           if caught_by [EnvironmentError; RepositoryNotFoundError; ValueError] e
           then let* _ := logger_error (fallback_message e) in ret None
           else raise e)
    else ret None in
  match returned with
  | Some p => ret p
  | None =>
      if truthy url_source then
        retrieve_model_gcs (model m) (default "" url_source) cache_dir
      else raise (no_source m)
  end.

(** ** TextEmbedding (fastembed/text/text_embedding.py) *)

(** What [TextEmbedding] uses of an embedding class: the model
    descriptions it lists and its constructor
    [cls(model_name, cache_dir, threads, **kwargs)], which may do
    anything to the world and return an instance or raise.  [T] is the
    type of instances, [K] that of the keyword arguments. *)
Record embedding_class (T K : Type) := EmbeddingClass {
  class_supported_models : list model_description;
  class_new : string → option path → option Z → K → M T
}.
Arguments class_supported_models {T K} _.
Arguments class_new {T K} _ _ _ _ _.

(** The three classes the module imports. *)
Class TextEmbeddingClasses (T K : Type) := {
  OnnxTextEmbedding : embedding_class T K;
  E5OnnxEmbedding : embedding_class T K;
  JinaOnnxEmbedding : embedding_class T K
}.

Definition EMBEDDINGS_REGISTRY {T K : Type} `{!TextEmbeddingClasses T K}
  : list (embedding_class T K) :=
  [OnnxTextEmbedding; E5OnnxEmbedding; JinaOnnxEmbedding].

(** [TextEmbedding.list_supported_models]: the loop extends [result] by
    the list of each registered class in turn. *)
Definition list_supported_models {T K : Type} `{!TextEmbeddingClasses T K}
  : list model_description :=
  foldl (λ result embedding, result ++ class_supported_models embedding)
    [] EMBEDDINGS_REGISTRY.

(** A [TextEmbedding] object: what the base initialiser was given, and
    the instance of the class that serves the model. *)
Record text_embedding (T : Type) := TextEmbedding {
  te_model_name : string;
  te_cache_dir : option path;
  te_threads : option Z;
  te_model : T
}.
Arguments TextEmbedding {T} _ _ _ _.
Arguments te_model {T} _.
Arguments te_model_name {T} _.

Definition unsupported_model (model_name : string) : exn :=
  Exn ValueError
    ("Model " +:+ model_name +:+ " is not supported in TextEmbedding."
     +:+ "Please check the supported models using `TextEmbedding.list_supported_models()`").

(** [any(model_name == model["model"] for model in supported_models)]. *)
Definition lists_model {T K} (embedding : embedding_class T K)
    (model_name : string) : bool :=
  existsb (λ m, String.eqb model_name (model m))
    (class_supported_models embedding).

(** The loop of [TextEmbedding.__init__] over the registry. *)
Fixpoint init_loop {T K} (registry : list (embedding_class T K))
    (model_name : string) (cache_dir : option path) (threads : option Z)
    (kwargs : K) : M (text_embedding T) :=
  match registry with
  | [] => raise (unsupported_model model_name)
  | embedding :: rest =>
      if lists_model embedding model_name then
        let* instance := class_new embedding model_name cache_dir threads
                           kwargs in
        ret (TextEmbedding model_name cache_dir threads instance)
      else init_loop rest model_name cache_dir threads kwargs
  end.

(** [TextEmbedding.__init__]. *)
Definition TextEmbedding_init {T K : Type} `{!TextEmbeddingClasses T K}
    (model_name : string) (cache_dir : option path) (threads : option Z)
    (kwargs : K) : M (text_embedding T) :=
  init_loop EMBEDDINGS_REGISTRY model_name cache_dir threads kwargs.

(** ** Notions used in the statements *)

(** [steady P w0 w]: [P] holds of the current file system of [w] and of
    every state observed since [w0]. *)
Definition steady (P : node → Prop) (w0 w : world) : Prop :=
  P (fs w) ∧ ∃ steps, observed w = steps ++ observed w0 ∧ Forall P steps.

(** [keeps P c]: running [c], whether it returns or raises, never makes a
    state observable in which [P] fails. *)
Definition keeps (P : node → Prop) {A} (c : M A) : Prop :=
  ∀ w0 w, steady P w0 w → steady P w0 (c w).2.




(** [selects root sel d p]: the selector [sel], started at the directory
    [d], yields [p].  A terminating selector yields where it stands.  A
    precise one goes on from the entry of its name, which must exist, and
    be a directory when components follow.  A wildcard goes on from any
    entry of [d] whose name matches, a directory when components follow.
    A recursive wildcard goes on from [d] and from every directory below
    it that is reached through directories only, none of them a link. *)
Inductive selects `{Fnmatch} (root : tree) : selector → path → path → Prop :=
  | selects_here (d : path) :
      selects root Terminating d d
  | selects_precise (name : string) (dironly : bool) (successor : selector)
      (d p : path) :
      (if dironly then Path_is_dir (d ++ [name]) root
       else Path_exists (d ++ [name]) root) = true →
      selects root successor (d ++ [name]) p →
      selects root (Precise name dironly successor) d p
  | selects_wildcard (pat : string) (dironly : bool) (successor : selector)
      (d : path) (name : string) (c : tree) (p : path) :
      (name, c) ∈ scandir d root →
      fnmatch name pat = true →
      (dironly = true → Path_is_dir (d ++ [name]) root = true) →
      selects root successor (d ++ [name]) p →
      selects root (Wildcard pat dironly successor) d p
  | selects_below (successor : selector) (d : path) (t : tree) (rel : path)
      (m : gmap string tree) (p : path) :
      os_stat d root = Some t →
      lstat rel t = Some (Folder m) →
      selects root successor (d ++ rel) p →
      selects root (RecursiveWildcard successor) d p.

(** [rglob] takes the pattern. *)
Definition accepted (pattern : string) : Prop :=
  ∃ sel, rglob_selector pattern = Ok sel.

(** [p] matches [pattern] somewhere below [dir] and is a regular file,
    or a link that leads to one. *)
Definition file_matching `{Fnmatch} (root : tree) (dir : path)
    (pattern : string) (p : path) : Prop :=
  ∃ sel, rglob_selector pattern = Ok sel
         ∧ selects root sel dir p
         ∧ Path_is_file p root = true.


(** [offline c]: running [c] makes no HTTP request. *)
Definition offline {A} (c : M A) : Prop :=
  ∀ w, requests (c w).2 = requests w.

(** The line [download_file_from_gcs] prints when no length is declared. *)
Definition length_warning (url : string) : string :=
  "Warning: Content-length header is missing or zero in the response from "
  +:+ url +:+ ".".

(** What [int(response.headers.get("content-length", 0))] evaluates to. *)
Definition declared_length `{PyInt} (r : response) (z : Z) : Prop :=
  match content_length r with
  | Some s => py_int s = Some z
  | None => z = 0%Z
  end.

(** ** Sample collaborators and worlds *)

(** Name matching for patterns made of [*], [?] and plain characters. *)
Fixpoint wild_match (pat name : string) : bool :=
  match pat with
  | EmptyString =>
      match name with EmptyString => true | String _ _ => false end
  | String c pat' =>
      if Ascii.eqb c "*" then
        (fix any (name : string) : bool :=
           wild_match pat' name
           || match name with
              | String _ name' => any name'
              | EmptyString => false
              end) name
      else
        match name with
        | String d name' =>
            (Ascii.eqb c "?" || Ascii.eqb c d) && wild_match pat' name'
        | EmptyString => false
        end
  end.

Definition simple_fnmatch : Fnmatch := λ name pat, wild_match pat name.

Definition digit_value (a : ascii) : option Z :=
  let n := Z.of_nat (nat_of_ascii a) in
  if ((48 <=? n) && (n <=? 57))%Z then Some (n - 48)%Z else None.

Fixpoint decimal_go (acc : Z) (s : string) : option Z :=
  match s with
  | EmptyString => Some acc
  | String a s' =>
      match digit_value a with
      | Some d => decimal_go (10 * acc + d)%Z s'
      | None => None
      end
  end.

(** [int] on strings of decimal digits. *)
Definition decimal_int : PyInt :=
  λ s, match s with EmptyString => None | _ => decimal_go 0%Z s end.

(** A server that gives every request the same answer. *)
Definition serve (r : response) : Transport := λ _ _, Ok r.

Definition sample_members : list tar_member :=
  [ TarDir "fast-bge-small-en";
    TarFile "fast-bge-small-en/config.json" [x7b; x7d];
    TarDir "fast-bge-small-en/onnx";
    TarFile "fast-bge-small-en/onnx/model.onnx" [x08; x07] ].

Definition not_gzip : exn := Exn ReadError "not a gzip file".

Definition unexpected_end : exn := Exn ReadError "unexpected end of data".

Definition cut_short : exn :=
  Exn EOFError
    "Compressed file ended before the end-of-stream marker was reached".

(** A toy archive format: the first byte tells the archive apart.  [x01]
    is the model, [x02] the model with a broken second half, [x03] an
    archive whose one member steps out of the destination, [x04] an
    archive of the empty top directory, [x05] the model cut short by the
    transport; anything else is no archive. *)
Definition toy_tar : Tarfile :=
  λ bytes, match bytes with
           | x01 :: _ => TarImage sample_members None
           | x02 :: _ => TarImage (take 2 sample_members) (Some unexpected_end)
           | x03 :: _ =>
               TarImage [TarFile "../fast-bge-small-en/weights.bin" [x08]] None
           | x04 :: _ => TarImage [TarDir "fast-bge-small-en"] None
           | x05 :: _ => TarImage (take 2 sample_members) (Some cut_short)
           | _ => TarImage [] (Some not_gzip)
           end.

(** A hub that fails with a given exception, touching nothing. *)
Definition hub_raising (e : exn) : Hub := λ _ _ _, raise e.

Definition world_of (root : node) : world :=
  {| fs := root; observed := []; requests := []; log := []; stdout := [] |}.

Definition dir_of (l : list (string * node)) : node := Dir (list_to_map l).

Definition sample_url : string :=
  "https://storage.googleapis.com/qdrant-fastembed/fast-bge-small-en.tar.gz".

(** A cache root with nothing in it. *)
Definition empty_cache : node := dir_of [("cache", dir_of [])].

(** A cache that holds the model already. *)
Definition warm_cache : node :=
  dir_of [("cache",
           dir_of [("fast-bge-small-en",
                    Dir (<["config.json" := File [x7b; x7d]]> ∅))])].

(** A cache in which an interrupted attempt left a staging directory. *)
Definition interrupted_cache : node :=
  dir_of [("cache",
           dir_of [("tmp",
                    dir_of [("fast-bge-small-en",
                             Dir (<["partial.bin" := File [xff]]> ∅))])])].

(** A good archive, delivered in two chunks. *)
Definition archive_response : response :=
  Response 200 (Some "2") [[x01]; [x00]] None.

Definition forbidden_response : response := Response 403 None [] None.

(** No such object: the answer carries an error page. *)
Definition missing_response : response :=
  Response 404 None [[x3c; x68; x31; x3e]] None.

Definition folder_of (l : list (string * tree)) : tree :=
  Folder (list_to_map l).

(** A model directory in the layout of TransformerJS exports, with a
    directory that bears the name of a weights file. *)
Definition exported_model : tree :=
  folder_of [("model",
              folder_of [("model.onnx", folder_of []);
                         ("config.json", Regular [x7b; x7d]);
                         ("onnx",
                          folder_of [("model_quantized.onnx",
                                      Regular [x08])])])].

(** A snapshot as [huggingface_hub] lays it out: the files of the
    revision are links into the store of blobs; one of them has lost its
    blob. *)
Definition hub_snapshot : tree :=
  folder_of [("hub",
              folder_of [("blobs", folder_of [("0a1b", Regular [x08; x07])]);
                         ("snapshots",
                          folder_of [("main",
                                      folder_of [("model.onnx",
                                                  Symlink "../../blobs/0a1b");
                                                 ("vocab.txt",
                                                  Symlink "../../blobs/ffff")])])])].

(** A directory of templates, not meant as temporary, next to a file
    that is no archive. *)
Definition templates_tree : node :=
  dir_of [("var",
           dir_of [("tmpl",
                    Dir (<["notes.txt" := File [x68; x69]]> ∅));
                   ("model.tar.gz", File [x00])])].

(** The same, with the destination below a directory named [tmp]. *)
Definition tmp_tree : node :=
  dir_of [("var",
           dir_of [("tmp", Dir (<["notes.txt" := File [x68; x69]]> ∅));
                   ("model.tar.gz", File [x00])])].

Definition sample_description : model_description :=
  {| model := "BAAI/bge-small-en";
     sources := Some (<["hf" := "qdrant/bge-small-en-onnx"]>
                        (<["url" := sample_url]> ∅)) |}.

Definition permission_refused : exn :=
  Exn PermissionError "[Errno 13] Permission denied: '/cache'".

Definition repository_missing : exn :=
  Exn RepositoryNotFoundError "404 Client Error. Repository Not Found.".

Definition missing_key : exn := Exn KeyError "'etag'".

(** The orchestrator on the sample description when the hub refuses
    access to its cache directory. *)
Definition refused_run : result path * world :=
  @download_model (serve archive_response) decimal_int toy_tar
    (hub_raising permission_refused) sample_description ["cache"]
    (world_of empty_cache).

(** Extraction of a file that is no archive into [/var/tmpl]. *)
Definition templates_run : result path * world :=
  @decompress_to_cache toy_tar ["var"; "model.tar.gz"] ["var"; "tmpl"]
    (world_of templates_tree).


(** An acquisition over the remains of an interrupted one. *)
Definition recovery_run : result path * world :=
  @retrieve_model_gcs (serve archive_response) decimal_int toy_tar
    "BAAI/bge-small-en" sample_url ["cache"] (world_of interrupted_cache).

(** An acquisition into an empty cache. *)
Definition fresh_run : result path * world :=
  @retrieve_model_gcs (serve archive_response) decimal_int toy_tar
    "BAAI/bge-small-en" sample_url ["cache"] (world_of empty_cache).



(** Two acquisitions in a row of an archive that holds the empty top
    directory and nothing else. *)
Definition hollow_response : response :=
  Response 200 (Some "1") [[x04]] None.

Definition hollow_first : result path * world :=
  @retrieve_model_gcs (serve hollow_response) decimal_int toy_tar
    "BAAI/bge-small-en" sample_url ["cache"] (world_of empty_cache).

Definition hollow_second : result path * world :=
  @retrieve_model_gcs (serve hollow_response) decimal_int toy_tar
    "BAAI/bge-small-en" sample_url ["cache"] hollow_first.2.




(** An answer whose body breaks off after the first chunk. *)
Definition connection_broken : exn :=
  Exn RequestException "Connection broken: IncompleteRead".

Definition broken_response : response :=
  Response 200 (Some "4096") [[x01; x00]] (Some connection_broken).

(** A staging area in which a regular file sits where the archive's top
    directory is to go, next to a good archive. *)
Definition blocked_tree : node :=
  dir_of [("var",
           dir_of [("tmp", Dir (<["fast-bge-small-en" := File [x00]]> ∅));
                   ("model.tar.gz", File [x01])])].

(** A good archive next to an empty staging area. *)
Definition ready_tree : node :=
  dir_of [("var",
           dir_of [("tmp", dir_of []); ("model.tar.gz", File [x01])])].

(** A cache in which an error page was saved as the archive. *)
Definition spoiled_cache : node :=
  dir_of [("cache",
           dir_of [("fast-bge-small-en.tar.gz", File [x3c; x68; x31; x3e])])].

(** Descriptions with one source, and with none. *)
Definition repository_only : model_description :=
  {| model := "BAAI/bge-small-en";
     sources := Some (<["hf" := "qdrant/bge-small-en-onnx"]> ∅) |}.

Definition sourceless : model_description :=
  {| model := "BAAI/bge-small-en"; sources := None |}.

(** Three embedding classes whose instances are the names of the models
    they were made for; two of them list the same model. *)
Definition entry (name : string) : model_description :=
  {| model := name; sources := None |}.

Definition sample_classes : TextEmbeddingClasses string unit :=
  {| OnnxTextEmbedding :=
       EmbeddingClass string unit
         [entry "BAAI/bge-small-en"; entry "BAAI/bge-base-en"]
         (λ name _ _ _, ret ("onnx:" +:+ name));
     E5OnnxEmbedding :=
       EmbeddingClass string unit
         [entry "intfloat/multilingual-e5-large"; entry "BAAI/bge-base-en"]
         (λ name _ _ _, ret ("e5:" +:+ name));
     JinaOnnxEmbedding :=
       EmbeddingClass string unit
         [entry "jinaai/jina-embeddings-v2-base-en"]
         (λ name _ _ _, ret ("jina:" +:+ name)) |}.

(** * Properties *)

(** ** The directory tree *)

Lemma stat_nil (n : node) : stat [] n = Some n.
Proof. reflexivity. Qed.

Lemma stat_cons (x : string) (p : path) (m : gmap string node) :
  stat (x :: p) (Dir m) = m !! x ≫= stat p.
Proof. simpl. destruct (m !! x); reflexivity. Qed.

Lemma stat_app (p q : path) (n : node) :
  stat (p ++ q) n = stat p n ≫= stat q.
Proof.
  revert n. induction p as [|x p IH]; intros n; [reflexivity|].
  destruct n as [d|m|]; simpl; try reflexivity.
  destruct (m !! x) as [c|]; [apply IH | reflexivity].
Qed.

Lemma stat_below_none (p q : path) (n : node) :
  stat p n = None → stat (p ++ q) n = None.
Proof. intros H. rewrite stat_app, H. reflexivity. Qed.

Lemma stat_below_file (p q : path) (n : node) (d : list byte) :
  stat p n = Some (File d) → q ≠ [] → stat (p ++ q) n = None.
Proof.
  intros H Hq. rewrite stat_app, H. destruct q; [congruence | reflexivity].
Qed.

Lemma set_entry_same (x : string) (o : option node) (m : gmap string node) :
  set_entry x o m !! x = o.
Proof.
  destruct o; simpl; [apply lookup_insert_eq | apply lookup_delete_eq].
Qed.

Lemma set_entry_other (x y : string) (o : option node)
    (m : gmap string node) :
  x ≠ y → set_entry x o m !! y = m !! y.
Proof.
  intros Hxy.
  destruct o; simpl; [by apply lookup_insert_ne | by apply lookup_delete_ne].
Qed.

Lemma at_entry_single (x : string) g (m : gmap string node) :
  at_entry [x] g (Dir m) =
  match g (m !! x) with
  | inr o => inr (Dir (set_entry x o m))
  | inl e => inl e
  end.
Proof. reflexivity. Qed.

Lemma at_entry_deeper (x y : string) (p : path) g (m : gmap string node) :
  at_entry (x :: y :: p) g (Dir m) =
  match m !! x with
  | Some c =>
      match at_entry (y :: p) g c with
      | inr c' => inr (Dir (<[x:=c']> m))
      | inl e => inl e
      end
  | None => inl ENOENT
  end.
Proof. reflexivity. Qed.

(** After a change at [p], [p] holds what the change made of the entry. *)
Lemma at_entry_same (p : path) g (n n' : node) :
  at_entry p g n = inr n' →
  ∃ o, g (stat p n) = inr o ∧ stat p n' = o.
Proof.
  revert n n'. induction p as [|x p IH]; intros n n' H.
  - destruct n; discriminate.
  - destruct n as [d|m|]; try discriminate.
    destruct p as [|y p].
    + rewrite at_entry_single in H.
      destruct (g (m !! x)) as [e|o] eqn:Hg; [discriminate|].
      inversion H; subst. exists o.
      rewrite !stat_cons, set_entry_same.
      destruct (m !! x), o; simpl; auto.
    + rewrite at_entry_deeper in H.
      destruct (m !! x) as [c|] eqn:Hx; [|discriminate].
      destruct (at_entry (y :: p) g c) as [e|c'] eqn:Hc; [discriminate|].
      inversion H; subst. rewrite !stat_cons, lookup_insert_eq, Hx. simpl.
      apply IH in Hc. exact Hc.
Qed.

(** A change at [p] is invisible at any path that is neither above nor
    below [p]. *)
Lemma at_entry_frame (p q : path) g (n n' : node) :
  at_entry p g n = inr n' →
  ¬ p `prefix_of` q → ¬ q `prefix_of` p →
  stat q n' = stat q n.
Proof.
  revert q n n'. induction p as [|x p IH]; intros q n n' H Hpq Hqp.
  - destruct n; discriminate.
  - destruct n as [d|m|]; try discriminate.
    destruct q as [|y q]; [exfalso; apply Hqp, prefix_nil|].
    destruct (decide (x = y)) as [->|Hxy].
    + destruct p as [|z p].
      * exfalso. apply Hpq. apply prefix_cons, prefix_nil.
      * rewrite at_entry_deeper in H.
        destruct (m !! y) as [c|] eqn:Hx; [|discriminate].
        destruct (at_entry (z :: p) g c) as [e|c'] eqn:Hc; [discriminate|].
        inversion H; subst. rewrite !stat_cons, lookup_insert_eq, Hx. simpl.
        eapply IH; eauto using prefix_cons.
    + destruct p as [|z p].
      * rewrite at_entry_single in H.
        destruct (g (m !! x)) as [e|o]; [discriminate|].
        inversion H; subst. by rewrite !stat_cons, set_entry_other.
      * rewrite at_entry_deeper in H.
        destruct (m !! x) as [c|]; [|discriminate].
        destruct (at_entry (z :: p) g c) as [e|c']; [discriminate|].
        inversion H; subst. by rewrite !stat_cons, lookup_insert_ne.
Qed.

(** Two paths that part ways after a common start. *)
Lemma diverge_l (c r s : path) (x y : string) :
  x ≠ y → ¬ (c ++ x :: r) `prefix_of` (c ++ y :: s).
Proof.
  intros Hxy Hp. apply prefix_app_inv in Hp.
  destruct Hp as [k Hk]. simpl in Hk. congruence.
Qed.

Lemma at_entry_frame_diverge (c r s : path) (x y : string) g (n n' : node) :
  at_entry (c ++ x :: r) g n = inr n' → x ≠ y →
  stat (c ++ y :: s) n' = stat (c ++ y :: s) n.
Proof.
  intros H Hxy. eapply at_entry_frame; eauto using diverge_l.
Qed.

(** Only a directory can be changed, and it stays one. *)
Lemma at_entry_dir (p : path) g (n n' : node) :
  at_entry p g n = inr n' → (∃ m, n = Dir m) ∧ (∃ m', n' = Dir m').
Proof.
  intros H. destruct n as [d|m|]; try (destruct p; discriminate).
  split; [eauto|].
  destruct p as [|x [|y p]]; [discriminate| |].
  - rewrite at_entry_single in H. destruct (g (m !! x)); inversion H; eauto.
  - rewrite at_entry_deeper in H. destruct (m !! x); [|discriminate].
    destruct (at_entry (y :: p) g n); inversion H; eauto.
Qed.

(** The directories above a changed entry stay directories. *)
Lemma at_entry_above (p q : path) g (n n' : node) :
  at_entry (p ++ q) g n = inr n' → q ≠ [] →
  is_dir p n = true ∧ is_dir p n' = true.
Proof.
  revert n n'. induction p as [|x p IH]; intros n n' H Hq.
  - apply at_entry_dir in H as [[m ->] [m' ->]]. auto.
  - destruct n as [d|m|]; try discriminate.
    destruct (p ++ q) as [|z r] eqn:Hpq.
    { destruct p; [simpl in Hpq; congruence | discriminate]. }
    simpl app in H. rewrite Hpq, at_entry_deeper in H.
    destruct (m !! x) as [c|] eqn:Hx; [|discriminate].
    destruct (at_entry (z :: r) g c) as [e|c'] eqn:Hc; [discriminate|].
    inversion H; subst. unfold is_dir.
    rewrite !stat_cons, lookup_insert_eq, Hx. simpl.
    apply IH in Hc; auto.
Qed.

(** [mkdir_parents p] changes nothing outside the chain of directories
    that leads to [p]. *)
Lemma mkdir_parents_frame (p q : path) (n n' : node) :
  mkdir_parents p n = inr n' → ¬ q `prefix_of` p →
  stat q n' = stat q n.
Proof.
  revert q n n'. induction p as [|x p IH]; intros q n n' H Hq.
  - destruct n; inversion H; reflexivity.
  - destruct n as [d|m|]; try discriminate. simpl in H.
    destruct (mkdir_parents p (default (Dir ∅) (m !! x))) as [e|c'] eqn:Hc;
      [discriminate|].
    inversion H; subst.
    destruct q as [|y q]; [exfalso; apply Hq, prefix_nil|].
    rewrite !stat_cons.
    destruct (decide (x = y)) as [->|Hxy]; [|by rewrite lookup_insert_ne].
    rewrite lookup_insert_eq. simpl.
    assert (Hq' : ¬ q `prefix_of` p) by eauto using prefix_cons.
    rewrite (IH q _ _ Hc Hq').
    destruct (m !! y) as [c|]; simpl; [reflexivity|].
    destruct q as [|z q]; [exfalso; apply Hq', prefix_nil|].
    rewrite stat_cons, lookup_empty. reflexivity.
Qed.

Lemma mkdir_parents_is_dir (p : path) (n n' : node) :
  mkdir_parents p n = inr n' → is_dir p n' = true.
Proof.
  revert n n'. induction p as [|x p IH]; intros n n' H.
  - destruct n; inversion H; reflexivity.
  - destruct n as [d|m|]; try discriminate. simpl in H.
    destruct (mkdir_parents p (default (Dir ∅) (m !! x))) as [e|c'] eqn:Hc;
      [discriminate|].
    inversion H; subst. unfold is_dir.
    rewrite stat_cons, lookup_insert_eq. simpl. eapply IH, Hc.
Qed.

Lemma mkdir_parents_existing (p : path) (n : node) :
  is_dir p n = true → mkdir_parents p n = inr n.
Proof.
  revert n. induction p as [|x p IH]; intros n H.
  - unfold is_dir in H. simpl in H. destruct n; try discriminate. reflexivity.
  - unfold is_dir in H. destruct n as [d|m|]; try discriminate.
    rewrite stat_cons in H. simpl.
    destruct (m !! x) as [c|] eqn:Hx; [|discriminate]. simpl in *.
    rewrite IH by exact H. by rewrite insert_id.
Qed.

(** [mkdir_parents] keeps every directory that was there. *)
Lemma mkdir_parents_keeps_dir (p q : path) (n n' : node) :
  mkdir_parents p n = inr n' → is_dir q n = true → is_dir q n' = true.
Proof.
  revert q n n'. induction p as [|x p IH]; intros q n n' H Hq.
  - destruct n; inversion H; subst; exact Hq.
  - destruct n as [d|m|]; try discriminate. simpl in H.
    destruct (mkdir_parents p (default (Dir ∅) (m !! x))) as [e|c'] eqn:Hc;
      [discriminate|].
    inversion H; subst.
    destruct q as [|y q]; [reflexivity|].
    unfold is_dir in *. rewrite stat_cons in *.
    destruct (decide (x = y)) as [->|Hxy]; [|by rewrite lookup_insert_ne].
    rewrite lookup_insert_eq. simpl.
    destruct (m !! y) as [c|] eqn:Hy; [|discriminate]. simpl in *.
    eapply IH; eauto.
Qed.



Lemma os_rename_frame (src dst q : path) (fs0 fs1 : node) :
  os_rename src dst fs0 = inr fs1 →
  ¬ src `prefix_of` q → ¬ q `prefix_of` src →
  ¬ dst `prefix_of` q → ¬ q `prefix_of` dst →
  stat q fs1 = stat q fs0.
Proof.
  intros H H1 H2 H3 H4. unfold os_rename in H.
  destruct src as [|x src]; [discriminate|].
  destruct (stat (x :: src) fs0) as [s|] eqn:Hs; [|discriminate].
  destruct (bool_decide _).
  { destruct (bool_decide _); inversion H; reflexivity. }
  destruct (at_entry dst (rename_onto s) fs0) as [e|fsm] eqn:Hput;
    [discriminate|].
  rewrite (at_entry_frame _ _ _ _ _ H H1 H2).
  eapply at_entry_frame; eauto.
Qed.

(** A change at an entry goes through when the directory above it is
    there and the change accepts what the entry holds. *)
Lemma at_entry_ok (p : path) g (n : node) (o : option node) :
  p ≠ [] → is_dir (removelast p) n = true → g (stat p n) = inr o →
  ∃ n', at_entry p g n = inr n' ∧ stat p n' = o.
Proof.
  revert n. induction p as [|x p IH]; intros n Hp Hd Hg; [congruence|].
  destruct p as [|y p].
  - simpl in Hd. unfold is_dir in Hd. simpl in Hd.
    destruct n as [d|m|]; try discriminate.
    rewrite at_entry_single. rewrite stat_cons in Hg.
    replace (m !! x ≫= stat []) with (m !! x) in Hg
      by (destruct (m !! x); reflexivity).
    rewrite Hg. eexists; split; [reflexivity|].
    rewrite stat_cons, set_entry_same. destruct o; reflexivity.
  - change (removelast (x :: y :: p)) with (x :: removelast (y :: p)) in Hd.
    unfold is_dir in Hd. destruct n as [d|m|]; try discriminate.
    rewrite stat_cons in Hd, Hg. rewrite at_entry_deeper.
    destruct (m !! x) as [c|] eqn:Hx; [|discriminate]. simpl in Hd, Hg.
    destruct (IH c) as (c' & Hc' & Hs); [congruence|exact Hd|exact Hg|].
    rewrite Hc'. eexists; split; [reflexivity|].
    rewrite stat_cons, lookup_insert_eq. exact Hs.
Qed.

Lemma stat_parent_is_dir (p : path) (n c : node) :
  p ≠ [] → stat p n = Some c → is_dir (removelast p) n = true.
Proof.
  revert n. induction p as [|x p IH]; intros n Hp Hs; [congruence|].
  destruct n as [d|m|]; try discriminate.
  destruct p as [|y p]; [reflexivity|].
  change (removelast (x :: y :: p)) with (x :: removelast (y :: p)).
  unfold is_dir. rewrite stat_cons in *.
  destruct (m !! x) as [c0|]; [|discriminate]. simpl in *.
  apply IH; [congruence | exact Hs].
Qed.

(** ** One step of a computation *)

Lemma bind_ok {A B} (c : M A) (k : A → M B) (w w1 : world) (a : A) :
  c w = (Ok a, w1) → bind c k w = k a w1.
Proof. intros H. unfold bind. rewrite H. reflexivity. Qed.

Lemma bind_raise {A B} (c : M A) (k : A → M B) (w w1 : world) (e : exn) :
  c w = (Raise e, w1) → bind c k w = (Raise e, w1).
Proof. intros H. unfold bind. rewrite H. reflexivity. Qed.

Lemma syscall_ok (p : path) op (w : world) (fs' : node) :
  op (fs w) = inr fs' → syscall p op w = (Ok tt, commit fs' w).
Proof. intros H. unfold syscall. rewrite H. reflexivity. Qed.

Lemma syscall_raise (p : path) op (w : world) (e : errno) :
  op (fs w) = inl e → syscall p op w = (Raise (oserror e p), w).
Proof. intros H. unfold syscall. rewrite H. reflexivity. Qed.

(** ** download_file_from_gcs *)

(** The bytes that end up in the file: the chunks of the body, in order. *)
Lemma write_chunks_ok (out : path) (chunks : list (list byte))
    (w : world) (d : list byte) :
  out ≠ [] → stat out (fs w) = Some (File d) →
  ∃ w', write_chunks out chunks w = (Ok tt, w')
        ∧ stat out (fs w') = Some (File (d ++ concat chunks))
        ∧ requests w' = requests w ∧ log w' = log w
        ∧ stdout w' = stdout w
        ∧ ∀ q, ¬ out `prefix_of` q → ¬ q `prefix_of` out →
               stat q (fs w') = stat q (fs w).
Proof.
  intros Hout. revert w d.
  induction chunks as [|chunk rest IH]; intros w d Hs.
  - exists w. simpl. rewrite app_nil_r. auto 10.
  - simpl. destruct chunk as [|b chunk].
    + unfold bind at 1. simpl. apply IH. exact Hs.
    + destruct (at_entry_ok out
                  (λ o, match o with
                        | Some (File d) => inr (Some (File (d ++ b :: chunk)))
                        | Some Other => inr (Some Other)
                        | Some (Dir _) => inl EISDIR
                        | None => inl ENOENT
                        end) (fs w) (Some (File (d ++ b :: chunk))))
        as (fs' & Hop & Hst); auto.
      { eapply stat_parent_is_dir; eauto. }
      { rewrite Hs. reflexivity. }
      erewrite bind_ok by (apply syscall_ok; exact Hop).
      destruct (IH (commit fs' w) (d ++ b :: chunk) Hst)
        as (w' & Hrun & Hfile & Hreq & Hlog & Hstd & Hframe).
      exists w'. rewrite Hrun. rewrite Hfile, <- app_assoc. simpl.
      repeat split; auto.
      intros q H1 H2. rewrite Hframe by auto. simpl.
      eapply at_entry_frame; eauto.
Qed.



(** C6: when the destination does not exist and the server answers 403,
    [download_file_from_gcs] raises a [PermissionError] of its own, whose
    message tells the user to check the credentials, and writes nothing:
    the file system is as before and the destination still does not
    exist. *)
Theorem download_forbidden_is_permission_denied `{Transport, PyInt}
    (url : string) (output_path : path) (show_progress : bool)
    (w : world) (r : response) :
  exists_ output_path (fs w) = false →
  http_get (requests w) url = Ok r →
  status_code r = 403%Z →
  let out := download_file_from_gcs url output_path show_progress w in
  out.1 = Raise permission_denied
  ∧ exn_cls permission_denied = PermissionError
  ∧ str_in "check your credentials" (exn_msg permission_denied) = true
  ∧ fs out.2 = fs w
  ∧ observed out.2 = observed w
  ∧ exists_ output_path (fs out.2) = false.
Proof.
  intros Hex Hget Hst. unfold download_file_from_gcs, bind, get_fs.
  rewrite Hex. unfold requests_get. rewrite Hget, Hst. simpl.
  repeat split; auto.
Qed.


(** An answered download, whether the body arrives whole or is cut
    short: what it leaves in the world. *)
Lemma download_answered `{Transport, PyInt} (url : string) (out : path)
    (show_progress : bool) (w : world) (r : response) (z : Z) :
  exists_ out (fs w) = false →
  is_dir (removelast out) (fs w) = true →
  http_get (requests w) url = Ok r →
  status_code r ≠ 403%Z →
  declared_length r z →
  ∃ w', download_file_from_gcs url out show_progress w
        = (match body_error r with Some e => Raise e | None => Ok out end, w')
        ∧ stat out (fs w') = Some (File (concat (body r)))
        ∧ requests w' = requests w ++ [url]
        ∧ stdout w' = stdout w
                      ++ (if (z =? 0)%Z then [length_warning url] else [])
        ∧ log w' = log w
        ∧ ∀ q, ¬ out `prefix_of` q → ¬ q `prefix_of` out →
               stat q (fs w') = stat q (fs w).
Proof.
  intros Hex Hdir Hget Hst Hlen.
  assert (Hne : out ≠ []).
  { intros ->. unfold exists_ in Hex. discriminate. }
  assert (Hnone : stat out (fs w) = None).
  { unfold exists_ in Hex. destruct (stat out (fs w)); congruence. }
  apply Z.eqb_neq in Hst.
  set (w1 := {| fs := fs w; observed := observed w;
                requests := requests w ++ [url]; log := log w;
                stdout := stdout w |}).
  assert (Hz : total_size r w1 = (Ok z, w1)).
  { unfold total_size, declared_length in *.
    destruct (content_length r) as [s|]; [by rewrite Hlen | by subst]. }
  set (w2 := {| fs := fs w; observed := observed w;
                requests := requests w ++ [url]; log := log w;
                stdout := stdout w
                          ++ (if (z =? 0)%Z then [length_warning url]
                              else []) |}).
  assert (Hw2 : (if (z =? 0)%Z then print (length_warning url) else ret tt) w1
                = (Ok tt, w2)).
  { unfold w2. destruct (z =? 0)%Z; [reflexivity|].
    unfold ret, w1. by rewrite app_nil_r. }
  destruct (at_entry_ok out
              (λ o, match o with
                    | Some (Dir _) => inl EISDIR
                    | Some Other => inr (Some Other)
                    | _ => inr (Some (File []))
                    end) (fs w2) (Some (File []))) as (fs3 & Hop & Hs3); auto.
  { simpl. rewrite Hnone. reflexivity. }
  destruct (write_chunks_ok out (body r) (commit fs3 w2) [] Hne Hs3)
    as (w4 & Hrun & Hfile & Hreq4 & Hlog4 & Hstd4 & Hframe).
  exists w4. split; [|split; [exact Hfile|split; [|split; [|split]]]].
  - unfold download_file_from_gcs. unfold bind at 1, get_fs. rewrite Hex.
    unfold bind at 1, requests_get. rewrite Hget, Hst. fold w1.
    erewrite bind_ok by exact Hz.
    erewrite bind_ok by exact Hw2.
    erewrite bind_ok by (apply syscall_ok; exact Hop).
    erewrite bind_ok by exact Hrun.
    destruct (body_error r); reflexivity.
  - by rewrite Hreq4.
  - by rewrite Hstd4.
  - by rewrite Hlog4.
  - intros q H1' H2'. rewrite Hframe by auto. simpl.
    by rewrite (at_entry_frame _ _ _ _ _ Hop H1' H2').
Qed.


(** ** decompress_to_cache *)

Lemma prefix_self_app (n b : string) : String.prefix n (n +:+ b) = true.
Proof.
  induction n as [|a n IH]; simpl; [by destruct b|].
  destruct (ascii_dec a a); [exact IH | congruence].
Qed.

Lemma str_in_here (n b : string) : str_in n (n +:+ b) = true.
Proof.
  pose proof (prefix_self_app n b) as Hp.
  destruct (n +:+ b); cbn [str_in]; rewrite Hp; reflexivity.
Qed.

Lemma str_in_later (n a s : string) :
  str_in n s = true → str_in n (a +:+ s) = true.
Proof.
  intros H. induction a as [|c a IH]; [exact H|].
  change (String c a +:+ s) with (String c (a +:+ s)). cbn [str_in].
  rewrite IH. apply orb_true_r.
Qed.

Lemma render_cons (x : string) (p : path) :
  render (x :: p) = "/" +:+ x +:+ foldr (λ c acc, "/" +:+ c +:+ acc) "" p.
Proof. reflexivity. Qed.

Lemma string_app_cons (x : ascii) (a b : string) :
  String x a +:+ b = String x (a +:+ b).
Proof. reflexivity. Qed.

Lemma string_app_assoc (a b c : string) : (a +:+ b) +:+ c = a +:+ (b +:+ c).
Proof.
  induction a as [|x a IH]; [reflexivity|].
  rewrite !string_app_cons. f_equal. exact IH.
Qed.

Lemma render_middle (a b : path) (x : string) :
  ∃ pre post, render (a ++ x :: b) = pre +:+ x +:+ post.
Proof.
  induction a as [|y a (pre & post & IH)].
  - exists "/", (foldr (λ c acc, "/" +:+ c +:+ acc) "" b). reflexivity.
  - exists ("/" +:+ y +:+ pre), post.
    change ((y :: a) ++ x :: b) with (y :: (a ++ x :: b)).
    rewrite render_cons.
    destruct (a ++ x :: b) as [|z r] eqn:E; [by destruct a|].
    unfold render in IH. rewrite IH.
    rewrite !string_app_assoc. reflexivity.
Qed.

(** A path with a component named [tmp] has [tmp] in its text; the
    converse fails ([/var/tmpl]). *)
Lemma segment_in_render (x : string) (p : path) :
  x ∈ p → str_in x (render p) = true.
Proof.
  intros Hx. apply list_elem_of_split in Hx as (a & b & ->).
  destruct (render_middle a b x) as (pre & post & ->).
  apply str_in_later, str_in_here.
Qed.

Lemma os_rmtree_dir (p : path) (n : node) :
  p ≠ [] → is_dir p n = true →
  ∃ n', os_rmtree p n = inr n' ∧ stat p n' = None.
Proof.
  intros Hp Hd. unfold is_dir in Hd.
  destruct (stat p n) as [[d|m|]|] eqn:Hs; try discriminate.
  apply at_entry_ok; auto.
  - eapply stat_parent_is_dir; eauto.
  - rewrite Hs. reflexivity.
Qed.

(** ** What stays true of the file system while a computation runs *)

Lemma steady_start (P : node → Prop) (w : world) : P (fs w) → steady P w w.
Proof. intros H. split; [exact H|]. exists []. split; [reflexivity|constructor]. Qed.

Lemma steady_commit (P : node → Prop) (w0 w : world) (fs' : node) :
  steady P w0 w → P fs' → steady P w0 (commit fs' w).
Proof.
  intros [Hp (steps & Hobs & Hall)] Hp'. split; [exact Hp'|].
  exists (fs w :: steps). simpl. rewrite Hobs. split; [reflexivity|].
  constructor; assumption.
Qed.

Lemma steady_same_fs (P : node → Prop) (w0 w w' : world) :
  steady P w0 w → fs w' = fs w → observed w' = observed w → steady P w0 w'.
Proof. intros [Hp Hs] Hfs Hobs. split; [by rewrite Hfs | by rewrite Hobs]. Qed.

Lemma keeps_ret (P : node → Prop) {A} (a : A) : keeps P (ret a).
Proof. intros w0 w H. exact H. Qed.

Lemma keeps_raise (P : node → Prop) {A} (e : exn) : keeps P (@raise A e).
Proof. intros w0 w H. exact H. Qed.

Lemma keeps_get_fs (P : node → Prop) : keeps P get_fs.
Proof. intros w0 w H. exact H. Qed.


Lemma keeps_logger_error (P : node → Prop) (line : string) :
  keeps P (logger_error line).
Proof. intros w0 w H. eapply steady_same_fs; eauto. Qed.


Lemma keeps_bind (P : node → Prop) {A B} (c : M A) (k : A → M B) :
  keeps P c → (∀ a, keeps P (k a)) → keeps P (bind c k).
Proof.
  intros Hc Hk w0 w H. unfold bind. specialize (Hc w0 w H).
  destruct (c w) as [[a|e] w1]; simpl in *; [apply Hk; exact Hc | exact Hc].
Qed.

Lemma keeps_try_except (P : node → Prop) {A} (c : M A) (h : exn → M A) :
  keeps P c → (∀ e, keeps P (h e)) → keeps P (try_except c h).
Proof.
  intros Hc Hh w0 w H. unfold try_except. specialize (Hc w0 w H).
  destruct (c w) as [[a|e] w1]; simpl in *; [exact Hc | apply Hh; exact Hc].
Qed.



Lemma keeps_syscall (P : node → Prop) (p : path) op :
  (∀ n n', op n = inr n' → P n → P n') → keeps P (syscall p op).
Proof.
  intros Hop w0 w H. unfold syscall.
  destruct (op (fs w)) as [e|fs'] eqn:E; simpl; [exact H|].
  apply steady_commit; [exact H|]. eapply Hop; [exact E | apply H].
Qed.





(** ** Computations that make no request *)

Lemma offline_ret {A} (a : A) : offline (ret a).
Proof. intros w. reflexivity. Qed.

Lemma offline_raise {A} (e : exn) : offline (@raise A e).
Proof. intros w. reflexivity. Qed.

Lemma offline_get_fs : offline get_fs.
Proof. intros w. reflexivity. Qed.

Lemma offline_print (line : string) : offline (print line).
Proof. intros w. reflexivity. Qed.

Lemma offline_logger_error (line : string) : offline (logger_error line).
Proof. intros w. reflexivity. Qed.

Lemma offline_syscall (p : path) op : offline (syscall p op).
Proof. intros w. unfold syscall. destruct (op (fs w)); reflexivity. Qed.

Lemma offline_bind {A B} (c : M A) (k : A → M B) :
  offline c → (∀ a, offline (k a)) → offline (bind c k).
Proof.
  intros Hc Hk w. unfold bind. specialize (Hc w).
  destruct (c w) as [[a|e] w1]; simpl in *; [|exact Hc].
  by rewrite Hk.
Qed.

Lemma offline_try_except {A} (c : M A) (h : exn → M A) :
  offline c → (∀ e, offline (h e)) → offline (try_except c h).
Proof.
  intros Hc Hh w. unfold try_except. specialize (Hc w).
  destruct (c w) as [[a|e] w1]; simpl in *; [exact Hc|].
  by rewrite Hh.
Qed.

Lemma offline_write_chunks (out : path) (chunks : list (list byte)) :
  offline (write_chunks out chunks).
Proof.
  induction chunks as [|chunk rest IH]; simpl; [apply offline_ret|].
  apply offline_bind; [|intros _; exact IH].
  destruct chunk; [apply offline_ret | apply offline_syscall].
Qed.

(** ** Extraction *)

(** A change of an entry that no directory undergoes leaves every
    directory a directory. *)
Lemma at_entry_keeps_dirs (p q : path) g (n n' : node) :
  at_entry p g n = inr n' →
  (∀ m, ∃ e, g (Some (Dir m)) = inl e) →
  is_dir q n = true → is_dir q n' = true.
Proof.
  intros H Hg Hq.
  destruct (decide (p `prefix_of` q)) as [[k ->]|Hpq].
  - exfalso. apply at_entry_same in H as (o & Ho & _).
    unfold is_dir in Hq. rewrite stat_app in Hq.
    destruct (stat p n) as [[d|m|]|] eqn:Hs; simpl in Hq.
    + destruct k; discriminate.
    + destruct (Hg m) as [e He]. congruence.
    + destruct k; discriminate.
    + discriminate.
  - destruct (decide (q `prefix_of` p)) as [[k ->]|Hqp].
    + eapply at_entry_above in H; [apply H|].
      intros ->. apply Hpq. by rewrite app_nil_r.
    + unfold is_dir in *. by erewrite at_entry_frame.
Qed.

Lemma os_mkdir_keeps_dirs (p q : path) (n n' : node) :
  os_mkdir p n = inr n' → is_dir q n = true → is_dir q n' = true.
Proof.
  intros H. eapply at_entry_keeps_dirs; [exact H|].
  intros m. eexists. reflexivity.
Qed.

Lemma os_open_wb_keeps_dirs (p q : path) (n n' : node) :
  os_open_wb p n = inr n' → is_dir q n = true → is_dir q n' = true.
Proof.
  intros H. eapply at_entry_keeps_dirs; [exact H|].
  intros m. eexists. reflexivity.
Qed.

Lemma os_write_keeps_dirs (p q : path) (data : list byte) (n n' : node) :
  os_write p data n = inr n' → is_dir q n = true → is_dir q n' = true.
Proof.
  intros H. eapply at_entry_keeps_dirs; [exact H|].
  intros m. eexists. reflexivity.
Qed.


Lemma at_path_inv (raw : list step) op (at_root : errno) (n n' : node) :
  at_path raw op at_root n = inr n' →
  ∃ p, resolve raw n = inr p ∧ p ≠ [] ∧ op p n = inr n'.
Proof.
  unfold at_path. destruct raw as [|s raw]; [discriminate|].
  destruct (resolve (s :: raw) n) as [e|[|x p]]; try discriminate.
  intros H. exists (x :: p). auto.
Qed.

Lemma keeps_at_path (P : node → Prop) (raw : list step) op (at_root : errno) :
  (∀ n n' p, resolve raw n = inr p → op p n = inr n' → P n → P n') →
  keeps P (syscall (written raw) (at_path raw op at_root)).
Proof.
  intros Hop. apply keeps_syscall. intros n n' H Hp.
  apply at_path_inv in H as (p & Hr & _ & Ho). eauto.
Qed.

Lemma keeps_pass_file_exists (P : node → Prop) (c : M unit) :
  keeps P c → keeps P (pass_file_exists c).
Proof.
  intros Hc. apply keeps_try_except; [exact Hc|].
  intros e. destruct (issubclass _ _); [apply keeps_ret | apply keeps_raise].
Qed.

(** [os.makedirs] keeps what every [os.mkdir] on a part of its name
    keeps. *)
Lemma keeps_makedirs_rev (P : node → Prop) (rname : list step) :
  (∀ rn, rn `suffix_of` rname →
         ∀ n n' p, resolve (rev rn) n = inr p → os_mkdir p n = inr n' →
                   P n → P n') →
  keeps P (makedirs_rev rname).
Proof.
  induction rname as [|tail rhead IH]; intros Hop; [apply keeps_raise|].
  cbn [makedirs_rev]. apply keeps_bind; [apply keeps_get_fs|]. intros root.
  apply keeps_bind.
  - destruct (os_path_exists _ root); [apply keeps_ret|].
    apply keeps_bind; [|intros _; apply keeps_ret].
    apply keeps_pass_file_exists, IH. intros rn Hrn. apply Hop.
    by apply suffix_cons_r.
  - intros made. destruct made; [apply keeps_ret|].
    apply keeps_at_path. by apply (Hop (tail :: rhead)).
Qed.

(** Extraction, whatever the names of the members, removes nothing and
    replaces no directory: what is a directory stays one. *)
Lemma keeps_dirs_extract_member (q dest : path) (mem : tar_member) :
  keeps (λ n, is_dir q n = true) (extract_member dest mem).
Proof.
  unfold extract_member.
  apply keeps_bind; [apply keeps_get_fs|]. intros root.
  apply keeps_bind.
  { destruct (os_path_exists _ root); [apply keeps_ret|].
    apply keeps_makedirs_rev. intros rn _ n n' p _ Hmk.
    by eapply os_mkdir_keeps_dirs. }
  intros _. destruct mem as [name|name data].
  - apply keeps_pass_file_exists, keeps_at_path. intros n n' p _ Hmk.
    by eapply os_mkdir_keeps_dirs.
  - apply keeps_bind.
    { apply keeps_at_path. intros n n' p _ Ho.
      by eapply os_open_wb_keeps_dirs. }
    intros _. destruct data; [apply keeps_ret|].
    apply keeps_at_path. intros n n' p _ Ho. by eapply os_write_keeps_dirs.
Qed.

Lemma keeps_dirs_extract_members (q dest : path) (mems : list tar_member) :
  keeps (λ n, is_dir q n = true) (extract_members dest mems).
Proof.
  induction mems as [|mem rest IH]; simpl; [apply keeps_ret|].
  apply keeps_bind; [apply keeps_dirs_extract_member | intros _; exact IH].
Qed.

Lemma keeps_dirs_tar_extractall `{Tarfile} (q targz dest : path) :
  keeps (λ n, is_dir q n = true) (tar_extractall targz dest).
Proof.
  unfold tar_extractall.
  apply keeps_bind; [apply keeps_get_fs|]. intros root.
  destruct (stat targz root) as [[bytes|m|]|]; try apply keeps_raise.
  apply keeps_bind; [apply keeps_dirs_extract_members|]. intros _.
  destruct (failure _); [apply keeps_raise | apply keeps_ret].
Qed.

Lemma tar_extractall_keeps_dest `{Tarfile} (targz dest : path) (w : world) :
  is_dir dest (fs w) = true →
  is_dir dest (fs (tar_extractall targz dest w).2) = true.
Proof.
  intros Hd.
  apply (keeps_dirs_tar_extractall dest targz dest w w (steady_start _ _ Hd)).
Qed.

(** The clean-up as the code has it: when extraction into an existing
    directory fails with a [TarError], [decompress_to_cache] raises a
    [ValueError] that names the archive and the cause.  If the text [tmp] occurs
    anywhere in the destination path (as a whole component or inside one)
    the destination is first removed with all it holds, and nothing at
    any other place changes; if it does not occur, nothing is removed: the
    world is as the failed extraction left it. *)
Lemma decompress_failure_cleanup `{Tarfile} (targz_path cache_dir : path)
    (w w1 : world) (e : exn) :
  is_file targz_path (fs w) = true →
  endswith (render targz_path) ".tar.gz" = true →
  is_dir cache_dir (fs w) = true →
  tar_extractall targz_path cache_dir w = (Raise e, w1) →
  issubclass (exn_cls e) TarError = true →
  let out := decompress_to_cache targz_path cache_dir w in
  out.1 = Raise (decompress_error targz_path e)
  ∧ if str_in "tmp" (render cache_dir)
    then stat cache_dir (fs out.2) = None
         ∧ observed out.2 = fs w1 :: observed w1
         ∧ ∀ q, ¬ cache_dir `prefix_of` q → ¬ q `prefix_of` cache_dir →
                stat q (fs out.2) = stat q (fs w1)
    else out.2 = w1 ∧ is_dir cache_dir (fs out.2) = true.
Proof.
  intros Hfile Hext Hdir Hrun Hcls.
  pose proof (tar_extractall_keeps_dest targz_path cache_dir w Hdir) as Hd1.
  rewrite Hrun in Hd1. simpl in Hd1.
  assert (Hstep : decompress_to_cache targz_path cache_dir w =
                  bind (if str_in "tmp" (render cache_dir)
                        then syscall cache_dir (os_rmtree cache_dir)
                        else ret tt)
                       (λ _, raise (decompress_error targz_path e)) w1).
  { unfold decompress_to_cache. unfold bind at 1, get_fs.
    rewrite Hfile, Hext. cbn [negb].
    unfold bind at 1, try_except. rewrite Hrun, Hcls.
    unfold bind.
    destruct ((if str_in "tmp" (render cache_dir)
               then syscall cache_dir (os_rmtree cache_dir) else ret tt) w1)
      as [[[]|e''] w3]; reflexivity. }
  intros out. subst out. rewrite Hstep.
  destruct (str_in "tmp" (render cache_dir)) eqn:Htmp.
  - assert (Hne : cache_dir ≠ []) by (intros ->; discriminate).
    destruct (os_rmtree_dir cache_dir (fs w1) Hne Hd1) as (fs' & Hrm & Hgone).
    erewrite bind_ok by (apply syscall_ok; exact Hrm).
    simpl. repeat split; auto.
    intros q H1 H2. eapply at_entry_frame; eauto.
  - simpl. auto.
Qed.

(** *** Members that stay inside the destination *)














(** ** The names in the cache *)

Lemma fast_not_tmp (model_name : string) : fast_model_name model_name ≠ "tmp".
Proof. unfold fast_model_name. discriminate. Qed.

Lemma targz_not_tmp (model_name : string) :
  fast_model_name model_name +:+ ".tar.gz" ≠ "tmp".
Proof. unfold fast_model_name. discriminate. Qed.

Lemma string_app_grows (s t : string) (a : ascii) : s ≠ s +:+ String a t.
Proof.
  induction s as [|b s IH]; [discriminate|].
  rewrite string_app_cons. congruence.
Qed.

Lemma fast_not_targz (model_name : string) :
  fast_model_name model_name ≠ fast_model_name model_name +:+ ".tar.gz".
Proof. apply string_app_grows. Qed.

Lemma endswith_app (s suffix : string) : endswith (s +:+ suffix) suffix = true.
Proof.
  induction s as [|a s IH].
  - change ("" +:+ suffix) with suffix.
    destruct suffix; cbn [endswith]; rewrite String.eqb_refl; reflexivity.
  - rewrite string_app_cons. cbn [endswith]. rewrite IH. apply orb_true_r.
Qed.

Lemma string_app_nil_r (s : string) : s +:+ "" = s.
Proof.
  induction s as [|a s IH]; [reflexivity|].
  rewrite string_app_cons. f_equal. exact IH.
Qed.

Lemma render_last (p : path) (x : string) :
  ∃ pre, render (p ++ [x]) = pre +:+ x.
Proof.
  induction p as [|y p (pre & IH)].
  - exists "/". change (render ([] ++ [x])) with ("/" +:+ x +:+ "").
    by rewrite string_app_nil_r.
  - exists ("/" +:+ y +:+ pre).
    change ((y :: p) ++ [x]) with (y :: (p ++ [x])). rewrite render_cons.
    destruct (p ++ [x]) as [|z r] eqn:E; [by destruct p|].
    unfold render in IH. rewrite IH, !string_app_assoc. reflexivity.
Qed.

Lemma targz_path_endswith (cache_dir : path) (name : string) :
  endswith (render (cache_dir ++ [name +:+ ".tar.gz"])) ".tar.gz" = true.
Proof.
  destruct (render_last cache_dir (name +:+ ".tar.gz")) as (pre & ->).
  rewrite <- string_app_assoc. apply endswith_app.
Qed.

(** ** retrieve_model_gcs *)

Lemma hit_check_populated (p : path) (n : node) (m : gmap string node) :
  stat p n = Some (Dir m) → m ≠ ∅ →
  exists_ p n && (0 <? length (listdir p n))%nat = true.
Proof.
  intros Hs Hm. unfold exists_, listdir. rewrite Hs. simpl.
  destruct (map_to_list m) as [|kv l] eqn:E.
  - apply map_to_list_empty_iff in E. congruence.
  - reflexivity.
Qed.

Lemma hit_check_absent (p : path) (n : node) :
  stat p n = None → exists_ p n && (0 <? length (listdir p n))%nat = false.
Proof. intros Hs. unfold exists_. rewrite Hs. reflexivity. Qed.


Lemma retrieve_hit `{Transport, PyInt, Tarfile}
    (model_name source_url : string) (cache_dir : path) (w : world)
    (m : gmap string node) :
  stat (cache_dir ++ [fast_model_name model_name]) (fs w) = Some (Dir m) →
  m ≠ ∅ →
  retrieve_model_gcs model_name source_url cache_dir w
  = (Ok (cache_dir ++ [fast_model_name model_name]), w).
Proof.
  intros Hs Hm. unfold retrieve_model_gcs, bind, get_fs.
  rewrite (hit_check_populated _ _ _ Hs Hm). reflexivity.
Qed.


Lemma os_rename_ok (src dst : path) (n s : node) :
  src ≠ [] → dst ≠ [] → stat src n = Some s →
  ¬ src `prefix_of` dst → ¬ dst `prefix_of` src →
  is_dir (removelast dst) n = true →
  rename_onto s (stat dst n) = inr (Some s) →
  ∃ n', os_rename src dst n = inr n' ∧ stat dst n' = Some s
        ∧ stat src n' = None.
Proof.
  intros Hsrc Hdst Hs Hsd Hds Hup Honto.
  destruct (at_entry_ok dst (rename_onto s) n (Some s) Hdst Hup Honto)
    as (n1 & Hput & Hst1).
  assert (Hs1 : stat src n1 = Some s).
  { rewrite <- Hs. eapply at_entry_frame; eauto. }
  destruct (at_entry_ok src (λ _, inr None) n1 None Hsrc) as (n2 & Hdel & Hst2).
  { eapply stat_parent_is_dir; eauto. }
  { reflexivity. }
  exists n2. split; [|split; [|exact Hst2]].
  - unfold os_rename. destruct src as [|x src]; [congruence|].
    rewrite Hs, bool_decide_eq_false_2 by exact Hsd.
    rewrite Hput. exact Hdel.
  - rewrite <- Hst1. eapply at_entry_frame; eauto.
Qed.

Lemma is_dir_parent (p : path) (x : string) (n : node) :
  is_dir (p ++ [x]) n = true → is_dir p n = true.
Proof.
  unfold is_dir at 1. destruct (stat (p ++ [x]) n) as [c|] eqn:Hs; [|discriminate].
  intros _. apply (stat_parent_is_dir (p ++ [x])) in Hs; [|by destruct p].
  by rewrite removelast_last in Hs.
Qed.



(** ** Path.rglob *)

Lemma elem_of_not_yet_yielded (yielded l : list path) (p : path) :
  p ∈ not_yet_yielded yielded l ↔ p ∈ l ∧ p ∉ yielded.
Proof.
  revert yielded. induction l as [|q l IH]; intros yielded; simpl.
  - split; [intros Hin; inversion Hin | intros [Hin _]; inversion Hin].
  - destruct (bool_decide (q ∈ yielded)) eqn:Hq.
    + apply bool_decide_eq_true in Hq. rewrite IH, elem_of_cons. split.
      * intros [Hin Hno]. auto.
      * intros [[-> | Hin] Hno]; [contradiction | auto].
    + apply bool_decide_eq_false in Hq. rewrite !elem_of_cons, IH. split.
      * intros [-> | [Hin Hno]]; [auto|].
        split; [auto|]. intros Hy. apply Hno. by right.
      * intros [[-> | Hin] Hno]; [auto|].
        destruct (decide (p = q)) as [-> | Hpq]; [auto|].
        right. split; [exact Hin|].
        intros Hy. apply elem_of_cons in Hy as [? | ?]; auto.
Qed.

Lemma elem_of_entries_below {N} (f : N → list path) (l : list (string * N))
    (rel : path) :
  rel ∈ foldr (uncurry (λ x c acc, ((x ::.) <$> f c) ++ acc)) [] l
  ↔ ∃ x c rel', (x, c) ∈ l ∧ rel = x :: rel' ∧ rel' ∈ f c.
Proof.
  induction l as [|[y d] l IH]; simpl.
  - split; [intros Hin; inversion Hin|].
    intros (x & c & rel' & Hin & _). inversion Hin.
  - rewrite elem_of_app, IH, list_elem_of_fmap. split.
    + intros [(rel' & -> & Hin) | (x & c & rel' & Hin & Hrel & Hm)].
      * exists y, d, rel'. split; [left|]; auto.
      * exists x, c, rel'. split; [right|]; auto.
    + intros (x & c & rel' & Hin & Hrel & Hm).
      apply elem_of_cons in Hin as [E | Hin].
      * inversion E; subst. left. eauto.
      * right. eauto 6.
Qed.

(** [_iterate_directories] yields the directories that are reached
    through directories, none of them a link. *)
Lemma elem_of_folders_below (t : tree) (rel : path) :
  rel ∈ folders_below t ↔ ∃ m, lstat rel t = Some (Folder m).
Proof.
  revert t. induction rel as [|x rel IH]; intros t.
  - destruct t as [d|m| |target]; simpl;
      try (split; [intros Hin; inversion Hin | intros [m' Hm]; discriminate]).
    split; [eauto | intros _; left].
  - destruct t as [d|m| |target]; simpl;
      try (split; [intros Hin; inversion Hin | intros [m' Hm]; discriminate]).
    rewrite elem_of_cons, map_fold_foldr, (elem_of_entries_below folders_below).
    split.
    + intros [E | (y & c & rel' & Hin & E & Hrel)]; [discriminate|].
      injection E as <- <-. apply elem_of_map_to_list in Hin. rewrite Hin.
      by apply IH.
    + intros [m' Hm]. right.
      destruct (m !! x) as [c|] eqn:Hx; [|discriminate].
      exists x, c, rel. split; [by apply elem_of_map_to_list|].
      split; [reflexivity|]. apply IH. eauto.
Qed.

Lemma elem_of_iterate_directories (d d' : path) (root : tree) :
  d' ∈ iterate_directories d root
  ↔ ∃ t rel m, os_stat d root = Some t ∧ lstat rel t = Some (Folder m)
               ∧ d' = d ++ rel.
Proof.
  unfold iterate_directories. destruct (os_stat d root) as [t|].
  - rewrite list_elem_of_fmap. setoid_rewrite elem_of_folders_below. split.
    + intros (rel & -> & m & Hm). eauto 6.
    + intros (t' & rel & m & [= <-] & Hm & ->). eauto.
  - split; [intros Hin; inversion Hin|].
    intros (t & rel & m & Hs & _). discriminate.
Qed.

Lemma elem_of_flat_map {A B} (f : A → list B) (l : list A) (y : B) :
  y ∈ flat_map f l ↔ ∃ x, x ∈ l ∧ y ∈ f x.
Proof.
  rewrite list_elem_of_In, in_flat_map.
  by setoid_rewrite list_elem_of_In.
Qed.

(** What a selector yields is what it selects. *)
Lemma elem_of_select_from `{Fnmatch} (sel : selector) (d p : path)
    (root : tree) :
  p ∈ select_from sel d root ↔ selects root sel d p.
Proof.
  revert d. induction sel as [|name dironly succ IH|pat dironly succ IH|succ IH];
    intros d; cbn [select_from].
  - rewrite list_elem_of_singleton. split.
    + intros ->. constructor.
    + intros Hs. by inversion Hs.
  - destruct (if dironly then Path_is_dir (d ++ [name]) root
              else Path_exists (d ++ [name]) root) eqn:Htest.
    + rewrite IH. split.
      * intros Hs. by constructor.
      * intros Hs. by inversion Hs.
    + split; [intros Hin; inversion Hin|].
      intros Hs. inversion Hs; subst. congruence.
  - rewrite elem_of_flat_map. split.
    + intros ([name c] & Hin & Hp). simpl in Hp.
      destruct (negb dironly || Path_is_dir (d ++ [name]) root) eqn:Hdir;
        [|inversion Hp].
      destruct (fnmatch name pat) eqn:Hm; [|inversion Hp].
      simpl in Hp. apply IH in Hp.
      eapply selects_wildcard; eauto.
      intros ->. exact Hdir.
    + intros Hs. inversion Hs as [| |? ? ? ? name c ? Hin Hm Hdir Hsucc|]; subst.
      exists (name, c). split; [exact Hin|]. simpl. rewrite Hm.
      assert (Hok : negb dironly || Path_is_dir (d ++ [name]) root = true).
      { destruct dironly; [by apply Hdir | reflexivity]. }
      rewrite Hok. simpl. by apply IH.
  - rewrite elem_of_not_yet_yielded, elem_of_flat_map.
    setoid_rewrite elem_of_iterate_directories. split.
    + intros [(d' & (t & rel & m & Hs & Hm & ->) & Hp) _].
      apply IH in Hp. eapply selects_below; eauto.
    + intros Hs. inversion Hs; subst. split; [|apply not_elem_of_nil].
      exists (d ++ rel). split; [eauto 6 | by apply IH].
Qed.

Lemma rglob_selector_recursive (pattern : string) (sel : selector) :
  rglob_selector pattern = Ok sel → ∃ succ, sel = RecursiveWildcard succ.
Proof.
  unfold rglob_selector. destruct (String.prefix "/" pattern); [discriminate|].
  cbn [make_selector].
  change (String.eqb "**" "") with false.
  change (String.eqb "**" "**") with true. cbn iota.
  destruct (make_selector (pattern_parts pattern)) as [succ|e];
    [|discriminate].
  intros [= <-]. eauto.
Qed.

(** A recursive wildcard selects from directories only. *)
Lemma selects_from_directory `{Fnmatch} (root : tree) (succ : selector)
    (d p : path) :
  selects root (RecursiveWildcard succ) d p → Path_is_dir d root = true.
Proof.
  intros Hs. inversion Hs as [| | |? ? t rel m ? Hst Hm]; subst.
  unfold Path_is_dir. rewrite Hst.
  destruct rel; simpl in Hm; [by injection Hm as -> | by destruct t].
Qed.

(** ** locate_model_file *)

(** The files among what [rglob] yields are the files matching the
    pattern. *)
Lemma elem_of_file_paths `{Fnmatch} (root : tree) (dir : path)
    (pattern : string) (paths : list path) (p : path) :
  rglob dir pattern root = Ok paths →
  p ∈ List.filter (λ p, Path_is_file p root) paths
  ↔ file_matching root dir pattern p.
Proof.
  unfold rglob, file_matching.
  destruct (rglob_selector pattern) as [sel|e] eqn:Hsel; [|discriminate].
  intros [= <-].
  rewrite list_elem_of_In, filter_In, <- list_elem_of_In. split.
  - intros [Hin Hfile].
    destruct (Path_is_dir dir root); [|inversion Hin].
    apply elem_of_select_from in Hin. eauto.
  - intros (sel' & [= <-] & Hs & Hfile). split; [|exact Hfile].
    destruct (rglob_selector_recursive _ _ Hsel) as [succ ->].
    rewrite (selects_from_directory _ _ _ _ Hs).
    by apply elem_of_select_from.
Qed.

Lemma file_paths_nil `{Fnmatch} (root : tree) (dir : path) (pattern : string)
    (paths : list path) :
  rglob dir pattern root = Ok paths →
  List.filter (λ p, Path_is_file p root) paths = []
  ↔ ∀ q, ¬ file_matching root dir pattern q.
Proof.
  intros Hg. split.
  - intros E q Hq. apply (elem_of_file_paths _ _ _ _ _ Hg) in Hq.
    rewrite E in Hq. inversion Hq.
  - intros Hno.
    destruct (List.filter _ _) as [|p l] eqn:E; [reflexivity|].
    exfalso. apply (Hno p), (elem_of_file_paths _ _ _ _ _ Hg).
    rewrite E. left.
Qed.

Lemma rglob_accepted `{Fnmatch} (dir : path) (pattern : string) (root : tree) :
  accepted pattern → ∃ paths, rglob dir pattern root = Ok paths.
Proof. intros [sel Hsel]. unfold rglob. rewrite Hsel. eauto. Qed.

Lemma locate_loop_skip `{Fnmatch} (dir : path) (nf : exn)
    (pre rest : list string) (root : tree) :
  (∀ g, g ∈ pre → accepted g ∧ ∀ q, ¬ file_matching root dir g q) →
  locate_loop dir nf (pre ++ rest) root = locate_loop dir nf rest root.
Proof.
  induction pre as [|g pre IH]; intros Hno; [reflexivity|].
  destruct (Hno g) as [Hacc Hnone]; [left|].
  destruct (rglob_accepted dir g root Hacc) as [paths Hg].
  simpl. rewrite Hg, (proj2 (file_paths_nil root dir g paths Hg) Hnone).
  apply IH. intros g' Hg'. apply Hno. by right.
Qed.

Lemma locate_loop_here `{Fnmatch} (dir : path) (nf : exn) (f : string)
    (post : list string) (root : tree) (q : path) :
  file_matching root dir f q →
  ∃ p, locate_loop dir nf (f :: post) root = Ok p
       ∧ file_matching root dir f p.
Proof.
  intros Hq. pose proof Hq as (sel & Hsel & _).
  destruct (rglob_accepted dir f root (ex_intro _ sel Hsel)) as [paths Hg].
  simpl. rewrite Hg.
  destruct (List.filter _ _) as [|p l] eqn:E.
  - exfalso. eapply file_paths_nil; eauto.
  - exists p. split; [reflexivity|].
    apply (elem_of_file_paths _ _ _ _ _ Hg). rewrite E. left.
Qed.

Lemma locate_loop_refused `{Fnmatch} (dir : path) (nf : exn) (f : string)
    (post : list string) (root : tree) (e : exn) :
  rglob_selector f = Raise e →
  locate_loop dir nf (f :: post) root = Raise e.
Proof. intros Hsel. simpl. unfold rglob. by rewrite Hsel. Qed.

Lemma locate_loop_none `{Fnmatch} (dir : path) (nf : exn)
    (names : list string) (root : tree) :
  (∀ g, g ∈ names → accepted g ∧ ∀ q, ¬ file_matching root dir g q) →
  locate_loop dir nf names root = Raise nf.
Proof.
  intros Hno. rewrite <- (app_nil_r names). by rewrite locate_loop_skip.
Qed.

Lemma locate_loop_ok `{Fnmatch} (dir : path) (nf : exn) (names : list string)
    (root : tree) (p : path) :
  locate_loop dir nf names root = Ok p →
  ∃ pre f post, names = pre ++ f :: post
                ∧ (∀ g, g ∈ pre →
                        accepted g ∧ ∀ q, ¬ file_matching root dir g q)
                ∧ file_matching root dir f p.
Proof.
  induction names as [|g names IH]; simpl; [discriminate|].
  destruct (rglob dir g root) as [paths|e] eqn:Hg; [|discriminate].
  destruct (List.filter _ _) as [|p' l] eqn:E.
  - intros Hrest. destruct (IH Hrest) as (pre & f & post & -> & Hno & Hm).
    exists (g :: pre), f, post. split; [reflexivity|]. split; [|exact Hm].
    intros g' Hg'. apply elem_of_cons in Hg' as [-> | Hg'].
    + split; [|by apply (file_paths_nil _ _ _ _ Hg)].
      revert Hg. unfold rglob, accepted.
      destruct (rglob_selector g); [eauto | discriminate].
    + by apply Hno.
  - intros Hp. inversion Hp; subst p'.
    exists [], g, names. split; [reflexivity|]. split.
    + intros g' Hg'. inversion Hg'.
    + apply (elem_of_file_paths _ _ _ _ _ Hg). rewrite E. left.
Qed.

Lemma join_has (sep : string) (l : list string) (g : string) :
  g ∈ l → ∃ a b, join sep l = a +:+ g +:+ b.
Proof.
  induction l as [|x l IH]; intros Hg; [inversion Hg|].
  apply elem_of_cons in Hg as [-> | Hg].
  - destruct l as [|y l].
    + exists "", "". simpl. by rewrite string_app_nil_r.
    + exists "", (sep +:+ join sep (y :: l)). reflexivity.
  - destruct (IH Hg) as (a & b & E).
    destruct l as [|y l]; [inversion Hg|].
    exists (x +:+ sep +:+ a), b.
    change (join sep (x :: y :: l)) with (x +:+ sep +:+ join sep (y :: l)).
    rewrite E, !string_app_assoc. reflexivity.
Qed.

(** The error for "nothing found" names every candidate. *)
Lemma could_not_find_names (model_dir : path) (file_names : list string)
    (g : string) :
  g ∈ file_names →
  str_in g (exn_msg (could_not_find model_dir file_names)) = true.
Proof.
  intros Hg. destruct (join_has ", " file_names g Hg) as (a & b & E).
  unfold could_not_find. cbn [exn_msg]. rewrite E.
  rewrite !string_app_assoc.
  apply str_in_later, str_in_later, str_in_here.
Qed.

Lemma errors_distinct (model_dir : path) (file_names : list string) :
  not_a_directory model_dir ≠ could_not_find model_dir file_names.
Proof. unfold not_a_directory, could_not_find. discriminate. Qed.

(** ** download_model *)

Lemma download_model_hub_ok `{Transport, PyInt, Tarfile, Hub}
    (m : model_description) (cache_dir p : path) (w w1 : world) (hf : string) :
  default ∅ (sources m) !! "hf" = Some hf → hf ≠ "" →
  download_files_from_huggingface hf cache_dir w = (Ok p, w1) →
  download_model m cache_dir w = (Ok p, w1).
Proof.
  intros Hhf Hne Hrun. unfold download_model. rewrite Hhf.
  apply String.eqb_neq in Hne. unfold truthy at 1. rewrite Hne. cbn [negb].
  unfold bind at 1, try_except, bind at 1. cbn [from_option id].
  rewrite Hrun. reflexivity.
Qed.

Lemma download_model_hub_raises `{Transport, PyInt, Tarfile, Hub}
    (m : model_description) (cache_dir : path) (w w1 : world) (hf : string)
    (e : exn) :
  default ∅ (sources m) !! "hf" = Some hf → hf ≠ "" →
  download_files_from_huggingface hf cache_dir w = (Raise e, w1) →
  download_model m cache_dir w =
  if caught_by [EnvironmentError; RepositoryNotFoundError; ValueError] e then
    (if truthy (default ∅ (sources m) !! "url") then
       retrieve_model_gcs (model m)
         (default "" (default ∅ (sources m) !! "url")) cache_dir
     else raise (no_source m))
      (logger_error (fallback_message e) w1).2
  else (Raise e, w1).
Proof.
  intros Hhf Hne Hrun. unfold download_model. rewrite Hhf.
  apply String.eqb_neq in Hne. unfold truthy at 1. rewrite Hne. cbn [negb].
  unfold bind at 1, try_except, bind at 1. cbn [from_option id].
  rewrite Hrun.
  destruct (caught_by _ e); reflexivity.
Qed.

(** Whatever it finds, an acquisition that returns returns the final
    directory. *)
Lemma retrieve_returns_final `{Transport, PyInt, Tarfile}
    (model_name source_url : string) (cache_dir p : path) (w w' : world) :
  retrieve_model_gcs model_name source_url cache_dir w = (Ok p, w') →
  p = cache_dir ++ [fast_model_name model_name].
Proof.
  unfold retrieve_model_gcs, bind, get_fs. intros Hrun.
  destruct (exists_ _ _ && _); [inversion Hrun; reflexivity|].
  repeat match type of Hrun with
         | (let (_, _) := ?c in _) = _ =>
             destruct c as [[?|?] ?]; [|discriminate]
         | (if ?b then _ else _) _ = _ => destruct b; [discriminate|]
         end.
  inversion Hrun; reflexivity.
Qed.

(** Two acquisitions in a row: if the first returns and the final
    directory is not empty then, the second returns the same path and
    leaves the world as the first left it. *)
Lemma retrieve_twice `{Transport, PyInt, Tarfile}
    (model_name source_url : string) (cache_dir p : path) (w w' : world)
    (m : gmap string node) :
  retrieve_model_gcs model_name source_url cache_dir w = (Ok p, w') →
  stat (cache_dir ++ [fast_model_name model_name]) (fs w') = Some (Dir m) →
  m ≠ ∅ →
  retrieve_model_gcs model_name source_url cache_dir w' = (Ok p, w').
Proof.
  intros Hrun Hs Hm. apply retrieve_returns_final in Hrun as ->.
  by eapply retrieve_hit.
Qed.

Lemma locate_loop_ok_any_error `{Fnmatch} (dir : path) (nf nf' : exn)
    (names : list string) (root : tree) (p : path) :
  locate_loop dir nf names root = Ok p → locate_loop dir nf' names root = Ok p.
Proof.
  induction names as [|g names IH]; simpl; [discriminate|].
  destruct (rglob dir g root); [|discriminate].
  destruct (List.filter _ _); auto.
Qed.

(** A text holds what it was put together from. *)
Lemma str_in_middle (a s b : string) : str_in s (a +:+ s +:+ b) = true.
Proof. apply str_in_later, str_in_here. Qed.

(** * The claims *)


(** C2, as the code has it: when the final directory exists and has at
    least one entry, [retrieve_model_gcs] returns it at once and leaves
    the world as it was: no request, no extraction, no change of the
    cache.  So of two calls in a row, whatever the first had to do: if it
    returns, it returns the final directory, and if that directory has at
    least one entry then, the second call returns the same path, makes
    no request and changes nothing. *)
Theorem cache_hit_is_immediate `{Transport, PyInt, Tarfile}
    (model_name source_url : string) (cache_dir : path) (w : world) :
  let final := cache_dir ++ [fast_model_name model_name] in
  let populated (v : world) :=
    ∃ m, stat final (fs v) = Some (Dir m) ∧ m ≠ ∅ in
  let first := retrieve_model_gcs model_name source_url cache_dir w in
  let second := retrieve_model_gcs model_name source_url cache_dir first.2 in
  (populated w → first = (Ok final, w))
  ∧ (∀ p, first.1 = Ok p → populated first.2 →
          p = final
          ∧ second = (Ok final, first.2)
          ∧ requests second.2 = requests first.2).
Proof.
  intros final populated first second. split.
  - intros (m & Hs & Hm). by apply (retrieve_hit _ _ _ _ m).
  - intros p Hp (m & Hs & Hm).
    assert (Hfinal : p = final).
    { destruct first as [r w1] eqn:Hrun. simpl in Hp. subst r.
      by apply retrieve_returns_final in Hrun. }
    assert (Hsecond : second = (Ok final, first.2))
      by (by apply (retrieve_hit _ _ _ _ m)).
    by rewrite Hsecond.
Qed.

(** C3, as the code has it: an exception of the repository attempt whose
    class derives from none of [EnvironmentError] (that is [OSError],
    the base of [PermissionError]), [RepositoryNotFoundError] and
    [ValueError] leaves [download_model] unchanged, in the world the
    repository attempt left: nothing is logged, no request is made, the
    archive source is not tried. *)
Theorem unexpected_hub_error_propagates `{Transport, PyInt, Tarfile, Hub}
    (m : model_description) (cache_dir : path) (w w1 : world) (hf : string)
    (e : exn) :
  default ∅ (sources m) !! "hf" = Some hf → hf ≠ "" →
  download_files_from_huggingface hf cache_dir w = (Raise e, w1) →
  issubclass (exn_cls e) EnvironmentError = false →
  issubclass (exn_cls e) RepositoryNotFoundError = false →
  issubclass (exn_cls e) ValueError = false →
  download_model m cache_dir w = (Raise e, w1)
  ∧ requests (download_model m cache_dir w).2 = requests w1
  ∧ log (download_model m cache_dir w).2 = log w1.
Proof.
  intros Hhf Hne Hrun H1' H2' H3'.
  rewrite (download_model_hub_raises m cache_dir w w1 hf e Hhf Hne Hrun).
  unfold caught_by. simpl existsb. rewrite H1', H2', H3'. simpl. auto.
Qed.

(** C4: for a description with a repository source and an archive
    source, the repository is tried first and its directory returned if
    it delivers.  If it raises an [EnvironmentError], a
    [RepositoryNotFoundError] or a [ValueError] (or an exception of a
    class derived from these), the failure is written to the log, not
    raised: one line is logged, which is the text of the source with the
    message of the exception in it.  [download_model] is then exactly the
    archive acquisition run in that world: its path, or its exception, is
    the result. *)
Theorem repository_first_then_archive `{Transport, PyInt, Tarfile, Hub}
    (m : model_description) (cache_dir : path) (w : world) (hf url : string) :
  default ∅ (sources m) !! "hf" = Some hf → hf ≠ "" →
  default ∅ (sources m) !! "url" = Some url → url ≠ "" →
  match download_files_from_huggingface hf cache_dir w with
  | (Ok p, w1) => download_model m cache_dir w = (Ok p, w1)
  | (Raise e, w1) =>
      caught_by [EnvironmentError; RepositoryNotFoundError; ValueError] e
      = true →
      let logged := (logger_error (fallback_message e) w1).2 in
      log logged = log w1 ++ [fallback_message e]
      ∧ fallback_message e
        = "Could not download model from HuggingFace: " +:+ exn_msg e
          +:+ "Falling back to other sources."
      ∧ str_in (exn_msg e) (fallback_message e) = true
      ∧ fs logged = fs w1
      ∧ requests logged = requests w1
      ∧ download_model m cache_dir w
        = retrieve_model_gcs (model m) url cache_dir logged
  end.
Proof.
  intros Hhf Hne Hurl Hune.
  destruct (download_files_from_huggingface hf cache_dir w) as [[p|e] w1]
    eqn:Hrun.
  - eapply download_model_hub_ok; eauto.
  - intros Hcaught logged.
    rewrite (download_model_hub_raises m cache_dir w w1 hf e Hhf Hne Hrun).
    rewrite Hcaught, Hurl. unfold truthy.
    apply String.eqb_neq in Hune. rewrite Hune. cbn [negb from_option id].
    split; [reflexivity|]. split; [reflexivity|].
    split; [apply str_in_middle|]. split; [reflexivity|].
    split; reflexivity.
Qed.

(** C7, as the code has it.  A candidate is a pattern for
    [Path.rglob], which refuses some: an absolute one with
    [NotImplementedError], one with [**] inside a component with
    [ValueError].  For a directory [model_dir] and candidates tried in
    the given order, [locate_model_file] returns a file that matches, at
    any depth below [model_dir], the earliest candidate that a file
    matches, provided the candidates before it are accepted; when all
    candidates are accepted and none is matched it raises an error whose
    message names every candidate; when the search reaches a candidate
    that is refused, it raises the error of [Path.rglob]; when
    [model_dir] is not a directory it raises a different error, which
    says so. *)
Theorem locate_model_file_first_match `{Fnmatch} (model_dir : path)
    (file_names : list string) (root : tree) :
  (Path_is_dir model_dir root = true →
   (∀ pre f post q,
      file_names = pre ++ f :: post →
      (∀ g, g ∈ pre →
            accepted g ∧ ∀ q', ¬ file_matching root model_dir g q') →
      file_matching root model_dir f q →
      ∃ p, locate_model_file model_dir file_names root = Ok p
           ∧ file_matching root model_dir f p)
   ∧ ((∀ g, g ∈ file_names →
            accepted g ∧ ∀ q, ¬ file_matching root model_dir g q) →
      locate_model_file model_dir file_names root
      = Raise (could_not_find model_dir file_names))
   ∧ (∀ pre f post e,
        file_names = pre ++ f :: post →
        (∀ g, g ∈ pre →
              accepted g ∧ ∀ q', ¬ file_matching root model_dir g q') →
        rglob_selector f = Raise e →
        locate_model_file model_dir file_names root = Raise e))
  ∧ (∀ g, g ∈ file_names →
          str_in g (exn_msg (could_not_find model_dir file_names)) = true)
  ∧ (Path_is_dir model_dir root = false →
     locate_model_file model_dir file_names root
     = Raise (not_a_directory model_dir))
  ∧ not_a_directory model_dir ≠ could_not_find model_dir file_names
  ∧ str_in "is not a directory" (exn_msg (not_a_directory model_dir)) = true.
Proof.
  split; [|split; [|split; [|split]]].
  - intros Hdir. unfold locate_model_file. rewrite Hdir. cbn [negb].
    split; [|split].
    + intros pre f post q -> Hno Hq.
      rewrite locate_loop_skip by exact Hno.
      eapply locate_loop_here; eauto.
    + apply locate_loop_none.
    + intros pre f post e -> Hno Hsel.
      rewrite locate_loop_skip by exact Hno.
      by apply locate_loop_refused.
  - apply could_not_find_names.
  - intros Hdir. unfold locate_model_file. rewrite Hdir. reflexivity.
  - apply errors_distinct.
  - unfold not_a_directory. cbn [exn_msg].
    rewrite <- string_app_assoc.
    apply str_in_later. reflexivity.
Qed.


(** C10, as the code has it: every path [locate_model_file] returns
    leads to a regular file, be the entry a regular file itself or a
    symbolic link to one; an entry that is a directory, something else,
    or a link that leads to no regular file is never returned.  And
    candidates that [Path.rglob] accepts and that lead to no regular
    file, whatever directories or other entries match them, do not stand
    in the way of a later candidate: the search goes on as if they were
    not in the list. *)
Theorem locate_model_file_regular_files_only `{Fnmatch} (model_dir : path)
    (root : tree) :
  (∀ file_names p,
     locate_model_file model_dir file_names root = Ok p →
     ∃ data, os_stat p root = Some (Regular data))
  ∧ (∀ skipped rest p,
       (∀ g, g ∈ skipped →
             ∃ paths, rglob model_dir g root = Ok paths
                      ∧ ∀ q, q ∈ paths → Path_is_file q root = false) →
       locate_model_file model_dir rest root = Ok p →
       locate_model_file model_dir (skipped ++ rest) root = Ok p).
Proof.
  split.
  - intros file_names p. unfold locate_model_file.
    destruct (negb _); [discriminate|]. intros Hok.
    apply locate_loop_ok in Hok as (pre & f & post & _ & _ & Hm).
    destruct Hm as (sel & _ & _ & Hfile). unfold Path_is_file in Hfile.
    destruct (os_stat p root) as [[data| | |]|]; try discriminate. eauto.
  - intros skipped rest p Hskip. unfold locate_model_file.
    destruct (negb _); [discriminate|]. intros Hok.
    assert (Hno : ∀ g, g ∈ skipped →
                       accepted g ∧ ∀ q, ¬ file_matching root model_dir g q).
    { intros g Hg. destruct (Hskip g Hg) as (paths & Hpaths & Hnone). split.
      - revert Hpaths. unfold rglob, accepted.
        destruct (rglob_selector g); [eauto | discriminate].
      - intros q Hq. apply (elem_of_file_paths _ _ _ _ _ Hpaths) in Hq.
        apply list_elem_of_In, filter_In in Hq as [Hin Hfile].
        apply list_elem_of_In in Hin. rewrite (Hnone q Hin) in Hfile.
        discriminate. }
    rewrite locate_loop_skip by exact Hno.
    eapply locate_loop_ok_any_error, Hok.
Qed.


(** * The claims on sample worlds *)



Lemma cache_hit_is_immediate_witness :
  fresh_run.1 = Ok ["cache"; "fast-bge-small-en"]
  ∧ requests fresh_run.2 = [sample_url]
  ∧ @retrieve_model_gcs (serve archive_response) decimal_int toy_tar
      "BAAI/bge-small-en" sample_url ["cache"] fresh_run.2
    = (Ok ["cache"; "fast-bge-small-en"], fresh_run.2).
Proof.
  assert (Hfirst : fresh_run.1 = Ok ["cache"; "fast-bge-small-en"])
    by (vm_compute; reflexivity).
  split; [exact Hfirst|]. split; [vm_compute; reflexivity|].
  destruct (@cache_hit_is_immediate (serve archive_response) decimal_int
              toy_tar "BAAI/bge-small-en" sample_url ["cache"]
              (world_of empty_cache)) as [_ Htwice].
  apply (Htwice _ Hfirst).
  exists (match stat ["cache"; "fast-bge-small-en"] (fs fresh_run.2) with
          | Some (Dir m) => m
          | _ => ∅
          end).
  split; [vm_compute; reflexivity|].
  intros Hempty.
  assert (Hentry : stat ["cache"; "fast-bge-small-en"; "config.json"]
                     (fs fresh_run.2) = Some (File [x7b; x7d]))
    by (vm_compute; reflexivity).
  rewrite (stat_app ["cache"; "fast-bge-small-en"] ["config.json"]) in Hentry.
  destruct (stat ["cache"; "fast-bge-small-en"] (fs fresh_run.2))
    as [[d|m|]|]; try discriminate.
  simpl in Hentry, Hempty. subst m. discriminate.
Defined.

(** What C2 says of two calls in a row does not hold when the archive
    packs the top directory and nothing in it: the first call leaves an
    empty final directory, which is no cache hit, and the second call
    asks the server again. *)
Lemma empty_model_is_fetched_again :
  hollow_first.1 = Ok ["cache"; "fast-bge-small-en"]
  ∧ stat ["cache"; "fast-bge-small-en"] (fs hollow_first.2) = Some (Dir ∅)
  ∧ requests hollow_first.2 = [sample_url]
  ∧ hollow_second.1 = Ok ["cache"; "fast-bge-small-en"]
  ∧ requests hollow_second.2 = [sample_url; sample_url]
  ∧ requests hollow_second.2 ≠ requests hollow_first.2.
Proof. vm_compute. repeat split; try reflexivity. discriminate. Qed.

Lemma unexpected_hub_error_propagates_witness :
  issubclass KeyError EnvironmentError = false
  ∧ @download_model (serve archive_response) decimal_int toy_tar
      (hub_raising missing_key) sample_description ["cache"]
      (world_of empty_cache)
    = (Raise missing_key, world_of empty_cache).
Proof.
  split; [reflexivity|].
  apply (@unexpected_hub_error_propagates (serve archive_response)
           decimal_int toy_tar (hub_raising missing_key) sample_description
           ["cache"] (world_of empty_cache) (world_of empty_cache)
           "qdrant/bge-small-en-onnx" missing_key);
    first [reflexivity | discriminate].
Defined.

(** What C3 says of [PermissionError] does not hold: it is an
    [EnvironmentError], so the orchestrator logs it and goes on to the
    archive source, which here delivers. *)
Lemma permission_error_falls_back :
  exn_cls permission_refused = PermissionError
  ∧ (@download_files_from_huggingface (hub_raising permission_refused)
       "qdrant/bge-small-en-onnx" ["cache"] (world_of empty_cache)).1
    = Raise permission_refused
  ∧ refused_run.1 ≠ Raise permission_refused
  ∧ refused_run.1 = Ok ["cache"; "fast-bge-small-en"]
  ∧ requests refused_run.2 = [sample_url]
  ∧ log refused_run.2 = [fallback_message permission_refused].
Proof. vm_compute. repeat split; try reflexivity. discriminate. Qed.

Lemma repository_first_then_archive_witness :
  caught_by [EnvironmentError; RepositoryNotFoundError; ValueError]
    repository_missing = true
  ∧ log (logger_error (fallback_message repository_missing)
           (world_of empty_cache)).2
    = [fallback_message repository_missing]
  ∧ str_in (exn_msg repository_missing)
      (fallback_message repository_missing) = true
  ∧ @download_model (serve archive_response) decimal_int toy_tar
      (hub_raising repository_missing) sample_description ["cache"]
      (world_of empty_cache)
    = @retrieve_model_gcs (serve archive_response) decimal_int toy_tar
        "BAAI/bge-small-en" sample_url ["cache"]
        (logger_error (fallback_message repository_missing)
           (world_of empty_cache)).2.
Proof.
  split; [reflexivity|].
  pose proof (@repository_first_then_archive (serve archive_response)
                decimal_int toy_tar (hub_raising repository_missing)
                sample_description ["cache"] (world_of empty_cache)
                "qdrant/bge-small-en-onnx" sample_url eq_refl
                ltac:(discriminate) eq_refl ltac:(discriminate)) as Hthm.
  destruct (Hthm eq_refl) as (Hlog & _ & Hin & _ & _ & Hrun).
  split; [exact Hlog|]. split; [exact Hin | exact Hrun].
Defined.

Lemma decompress_failure_cleanup_witness :
  str_in "tmp" (render ["var"; "tmp"]) = true
  ∧ stat ["var"; "tmp"]
      (fs (@decompress_to_cache toy_tar ["var"; "model.tar.gz"] ["var"; "tmp"]
             (world_of tmp_tree)).2) = None.
Proof.
  split; [reflexivity|].
  pose proof (@decompress_failure_cleanup toy_tar ["var"; "model.tar.gz"]
                ["var"; "tmp"] (world_of tmp_tree) (world_of tmp_tree)
                not_gzip eq_refl eq_refl eq_refl eq_refl eq_refl) as Hthm.
  apply Hthm.
Defined.

(** C5, at the input where the code departs from it: the destination
    [/var/tmpl] has no component [tmp] and was there, with a file in it,
    before the call; the file at the archive path is no archive.  The
    code tests whether the text [tmp] occurs in the path string, finds
    it in [tmpl], and removes the directory with what it held, where the
    claim, and the comment in the source ("if it was created in this
    function"), leave it untouched. *)
Lemma destination_without_tmp_segment_removed :
  ("tmp" ∉ ["var"; "tmpl"])
  ∧ stat ["var"; "tmpl"; "notes.txt"] (fs (world_of templates_tree))
    = Some (File [x68; x69])
  ∧ (@tar_extractall toy_tar ["var"; "model.tar.gz"] ["var"; "tmpl"]
       (world_of templates_tree)).1 = Raise not_gzip
  ∧ issubclass (exn_cls not_gzip) TarError = true
  ∧ templates_run.1
    = Raise (decompress_error ["var"; "model.tar.gz"] not_gzip)
  ∧ stat ["var"; "tmpl"] (fs templates_run.2) = None.
Proof.
  split.
  - intros Hin. repeat (apply elem_of_cons in Hin as [Hin | Hin];
                        [discriminate|]). inversion Hin.
  - vm_compute. repeat split; reflexivity.
Qed.

Lemma download_forbidden_is_permission_denied_witness :
  exists_ ["cache"; "fast-bge-small-en.tar.gz"] (fs (world_of empty_cache))
  = false
  ∧ (@download_file_from_gcs (serve forbidden_response) decimal_int
       sample_url ["cache"; "fast-bge-small-en.tar.gz"] true
       (world_of empty_cache)).1 = Raise permission_denied.
Proof.
  split; [reflexivity|].
  apply (@download_forbidden_is_permission_denied (serve forbidden_response)
           decimal_int sample_url ["cache"; "fast-bge-small-en.tar.gz"] true
           (world_of empty_cache) forbidden_response);
    reflexivity.
Defined.



Lemma locate_model_file_first_match_witness :
  Path_is_dir ["model"] exported_model = true
  ∧ ∃ p, @locate_model_file simple_fnmatch ["model"]
           ["model_optimized.onnx"; "model_quantized.onnx"] exported_model
         = Ok p
         ∧ @file_matching simple_fnmatch exported_model ["model"]
             "model_quantized.onnx" p.
Proof.
  split; [reflexivity|].
  destruct (@locate_model_file_first_match simple_fnmatch ["model"]
              ["model_optimized.onnx"; "model_quantized.onnx"] exported_model)
    as [Hdir _].
  destruct (Hdir eq_refl) as [Hfirst _].
  apply (Hfirst ["model_optimized.onnx"] "model_quantized.onnx" []
           ["model"; "onnx"; "model_quantized.onnx"] eq_refl).
  - intros g Hg. apply list_elem_of_singleton in Hg as ->.
    split; [eexists; reflexivity|].
    apply (@file_paths_nil simple_fnmatch exported_model ["model"]
             "model_optimized.onnx" [] eq_refl).
    reflexivity.
  - apply (@elem_of_file_paths simple_fnmatch exported_model ["model"]
             "model_quantized.onnx"
             [["model"; "onnx"; "model_quantized.onnx"]] _ eq_refl).
    left.
Defined.

(** What C7 says of a list none of whose candidates finds a file, and
    of the earliest candidate that does, does not hold for every
    candidate: [model**.onnx] matches nothing, and yet the search neither
    goes on to the next candidate, which is there, nor ends in the error
    that names the candidates; it ends in the [ValueError] of
    [Path.rglob]. *)
Lemma refused_candidate_ends_the_search :
  Path_is_dir ["model"] exported_model = true
  ∧ (∀ q, ¬ @file_matching simple_fnmatch exported_model ["model"]
              "model**.onnx" q)
  ∧ @locate_model_file simple_fnmatch ["model"] ["model_quantized.onnx"]
      exported_model
    = Ok ["model"; "onnx"; "model_quantized.onnx"]
  ∧ @locate_model_file simple_fnmatch ["model"]
      ["model**.onnx"; "model_quantized.onnx"] exported_model
    = Raise invalid_pattern
  ∧ @locate_model_file simple_fnmatch ["model"] ["model**.onnx"]
      exported_model
    = Raise invalid_pattern
  ∧ invalid_pattern ≠ could_not_find ["model"] ["model**.onnx"]
  ∧ str_in "model**.onnx" (exn_msg invalid_pattern) = false
  ∧ @locate_model_file simple_fnmatch ["model"] ["/model_quantized.onnx"]
      exported_model
    = Raise non_relative_pattern.
Proof.
  split; [reflexivity|]. split.
  - intros q (sel & Hsel & _). discriminate.
  - vm_compute. repeat split; try reflexivity. discriminate.
Qed.

Lemma locate_model_file_regular_files_only_witness :
  @rglob simple_fnmatch ["model"] "model.onnx" exported_model
  = Ok [["model"; "model.onnx"]]
  ∧ Path_is_dir ["model"; "model.onnx"] exported_model = true
  ∧ @locate_model_file simple_fnmatch ["model"]
      (["model.onnx"] ++ ["model_quantized.onnx"]) exported_model
    = Ok ["model"; "onnx"; "model_quantized.onnx"].
Proof.
  assert (Hmatches : @rglob simple_fnmatch ["model"] "model.onnx"
                       exported_model = Ok [["model"; "model.onnx"]])
    by (vm_compute; reflexivity).
  split; [exact Hmatches|]. split; [reflexivity|].
  destruct (@locate_model_file_regular_files_only simple_fnmatch ["model"]
              exported_model) as [_ Hskip].
  apply Hskip; [|reflexivity].
  intros g Hg. apply list_elem_of_singleton in Hg as ->.
  exists [["model"; "model.onnx"]]. split; [exact Hmatches|].
  intros q Hq. apply list_elem_of_singleton in Hq as ->.
  reflexivity.
Defined.

(** What C10 says of entries that are no regular files does not hold
    of symbolic links: in a snapshot of [huggingface_hub] the entry
    [model.onnx] is a link into the store of blobs, no regular file, and
    it is the path returned, because the link leads to a regular file.
    A link whose blob is gone is skipped. *)
Lemma link_to_a_file_is_returned :
  lstat ["hub"; "snapshots"; "main"; "model.onnx"] hub_snapshot
  = Some (Symlink "../../blobs/0a1b")
  ∧ @locate_model_file simple_fnmatch ["hub"; "snapshots"; "main"]
      ["model.onnx"] hub_snapshot
    = Ok ["hub"; "snapshots"; "main"; "model.onnx"]
  ∧ os_stat ["hub"; "snapshots"; "main"; "model.onnx"] hub_snapshot
    = Some (Regular [x08; x07])
  ∧ lstat ["hub"; "snapshots"; "main"; "vocab.txt"] hub_snapshot
    = Some (Symlink "../../blobs/ffff")
  ∧ @locate_model_file simple_fnmatch ["hub"; "snapshots"; "main"]
      ["vocab.txt"; "model.onnx"] hub_snapshot
    = Ok ["hub"; "snapshots"; "main"; "model.onnx"].
Proof. vm_compute. repeat split; reflexivity. Qed.



(** The acquisition over the interrupted one returns the final
    directory, which holds what the archive holds and nothing of the
    stale staging directory; staging directory and archive are gone. *)
Example recovery_run_succeeds :
  recovery_run.1 = Ok ["cache"; "fast-bge-small-en"]
  ∧ stat ["cache"; "fast-bge-small-en"; "onnx"; "model.onnx"]
      (fs recovery_run.2) = Some (File [x08; x07])
  ∧ stat ["cache"; "fast-bge-small-en"; "partial.bin"] (fs recovery_run.2)
    = None
  ∧ stat ["cache"; "tmp"; "fast-bge-small-en"] (fs recovery_run.2) = None
  ∧ stat ["cache"; "fast-bge-small-en.tar.gz"] (fs recovery_run.2) = None
  ∧ requests recovery_run.2 = [sample_url].
Proof. vm_compute. repeat split; reflexivity. Qed.

(** A [content-length] header that is no number ends the download in a
    [ValueError], before anything is written. *)
Example download_with_unreadable_length :
  (@download_file_from_gcs
     (serve (Response 200 (Some "many") [[x01]] None)) decimal_int sample_url
     ["cache"; "fast-bge-small-en.tar.gz"] true (world_of empty_cache)).1
  = Raise (Exn ValueError "invalid literal for int() with base 10: 'many'").
Proof. vm_compute. reflexivity. Qed.

(** Where the classes met above stand in the hierarchy. *)
Example permission_error_is_environment_error :
  issubclass PermissionError EnvironmentError = true
  ∧ issubclass RepositoryNotFoundError EnvironmentError = true
  ∧ issubclass RepositoryNotFoundError BaseException = true
  ∧ issubclass KeyError EnvironmentError = false
  ∧ issubclass ReadError TarError = true.
Proof. repeat split; reflexivity. Qed.

(** * Further properties of the code *)

(** ** The name of a cache entry *)

Lemma split_starts (c : ascii) (a b : string) :
  ∃ init, init ≠ [] ∧ split c (a +:+ String c b) = init ++ split c b.
Proof.
  induction a as [|x a (init & Hne & IH)].
  - exists [""]. split; [discriminate|].
    change ("" +:+ String c b) with (String c b). simpl.
    by rewrite Ascii.eqb_refl.
  - rewrite string_app_cons. simpl. destruct (Ascii.eqb x c).
    + exists ("" :: init). split; [discriminate|]. by rewrite IH.
    + rewrite IH. destruct init as [|h t]; [congruence|].
      exists (String x h :: t). split; [discriminate | reflexivity].
Qed.

Lemma split_not_nil (c : ascii) (s : string) : split c s ≠ [].
Proof.
  destruct s as [|a s]; simpl; [discriminate|].
  destruct (Ascii.eqb a c); [discriminate|].
  destruct (split c s); discriminate.
Qed.

Lemma last_split_after_sep (c : ascii) (a b : string) :
  last (split c (a +:+ String c b)) = last (split c b).
Proof.
  destruct (split_starts c a b) as (init & _ & ->).
  rewrite last_app.
  destruct (last (split c b)) eqn:E; [reflexivity|].
  apply last_None in E. by apply split_not_nil in E.
Qed.

Lemma split_without_sep (c : ascii) (s : string) :
  str_in (String c "") s = false → split c s = [s].
Proof.
  induction s as [|a s IH]; [reflexivity|].
  cbn [str_in]. simpl String.prefix.
  destruct (ascii_dec c a) as [->|Hca].
  - by destruct s.
  - simpl. intros Hs. rewrite (proj2 (Ascii.eqb_neq a c)) by congruence.
    by rewrite IH.
Qed.

Lemma split_parts_without_sep (c : ascii) (s x : string) :
  x ∈ split c s → str_in (String c "") x = false.
Proof.
  revert x. induction s as [|a s IH]; intros x Hx.
  - apply list_elem_of_singleton in Hx as ->. reflexivity.
  - simpl in Hx. destruct (Ascii.eqb a c) eqn:Hac.
    + apply elem_of_cons in Hx as [-> | Hx]; [reflexivity | by apply IH].
    + destruct (split c s) as [|h t] eqn:Hsp.
      { by apply split_not_nil in Hsp. }
      apply elem_of_cons in Hx as [-> | Hx].
      * cbn [str_in]. simpl String.prefix.
        destruct (ascii_dec c a) as [->|_].
        { by rewrite Ascii.eqb_refl in Hac. }
        simpl. apply IH. left.
      * apply IH. by right.
Qed.

Lemma str_in_char_cons (c a : ascii) (s : string) :
  str_in (String c "") (String a s)
  = if Ascii.eqb c a then true else str_in (String c "") s.
Proof.
  cbn [str_in]. simpl String.prefix.
  destruct (ascii_dec c a) as [->|Hca].
  - rewrite Ascii.eqb_refl. by destruct s.
  - by rewrite (proj2 (Ascii.eqb_neq c a)).
Qed.

Lemma str_in_char_app (c : ascii) (s t : string) :
  str_in (String c "") s = false → str_in (String c "") t = false →
  str_in (String c "") (s +:+ t) = false.
Proof.
  intros Hs Ht. induction s as [|a s IH]; [exact Ht|].
  rewrite string_app_cons, str_in_char_cons.
  rewrite str_in_char_cons in Hs.
  destruct (Ascii.eqb c a); [discriminate | by apply IH].
Qed.

(** X1: only the text after the last [/] of the model name enters the
    name of the cache entry: [org/name] and [name] give the same
    [fast-...] name, and a name without [/] is taken whole. *)
Theorem fast_model_name_is_basename (org name : string) :
  fast_model_name (org +:+ "/" +:+ name) = fast_model_name name
  ∧ (str_in "/" name = false → fast_model_name name = "fast-" +:+ name).
Proof.
  unfold fast_model_name. split.
  - change (org +:+ "/" +:+ name) with (org +:+ String "/"%char name).
    by rewrite last_split_after_sep.
  - intros Hn. by rewrite split_without_sep.
Qed.

Lemma fast_model_name_is_basename_witness :
  str_in "/" "bge-small-en" = false
  ∧ fast_model_name ("BAAI" +:+ "/" +:+ "bge-small-en")
    = "fast-" +:+ "bge-small-en".
Proof.
  split; [reflexivity|].
  destruct (fast_model_name_is_basename "BAAI" "bge-small-en") as [-> Hplain].
  apply Hplain. reflexivity.
Defined.

(** X2: the name of a cache entry never contains [/], whatever the model
    name: the final directory, the staging directory and the archive
    file are always direct children of [cache_dir] and [cache_dir/tmp]. *)
Theorem fast_model_name_has_no_slash (model_name : string) :
  str_in "/" (fast_model_name model_name) = false
  ∧ str_in "/" (fast_model_name model_name +:+ ".tar.gz") = false.
Proof.
  assert (Hlast : str_in "/" (default "" (last (split "/" model_name)))
                  = false).
  { destruct (last (split "/" model_name)) as [x|] eqn:E; [|reflexivity].
    apply last_Some_elem_of in E.
    apply (split_parts_without_sep "/"%char model_name x E). }
  unfold fast_model_name. split.
  - exact Hlast.
  - apply (str_in_char_app "/"%char); [exact Hlast | reflexivity].
Qed.

(** ** retrieve_model_gcs *)

(** X3: models of different organisations with the same base name share
    one cache entry: once [cache_dir/fast-<name>] is populated, asking for
    [org/name], for any [org] and any URL, returns that directory without
    a request and without a change. *)
Theorem cache_entry_is_shared_by_base_name `{Transport, PyInt, Tarfile}
    (org name source_url : string) (cache_dir : path) (w : world)
    (m : gmap string node) :
  stat (cache_dir ++ [fast_model_name name]) (fs w) = Some (Dir m) →
  m ≠ ∅ →
  retrieve_model_gcs (org +:+ "/" +:+ name) source_url cache_dir w
  = (Ok (cache_dir ++ [fast_model_name name]), w).
Proof.
  intros Hs Hm.
  assert (Hname : fast_model_name (org +:+ "/" +:+ name)
                  = fast_model_name name).
  { unfold fast_model_name.
    change (org +:+ "/" +:+ name) with (org +:+ String "/"%char name).
    by rewrite last_split_after_sep. }
  rewrite <- Hname in *. by apply (retrieve_hit _ _ _ _ m).
Qed.

Lemma cache_entry_is_shared_by_base_name_witness :
  stat ["cache"; "fast-bge-small-en"] (fs (world_of warm_cache))
  = Some (Dir (<["config.json" := File [x7b; x7d]]> ∅))
  ∧ @retrieve_model_gcs (serve forbidden_response) decimal_int toy_tar
      ("someone-else" +:+ "/" +:+ "bge-small-en") "https://elsewhere/x.tar.gz"
      ["cache"] (world_of warm_cache)
    = (Ok ["cache"; "fast-bge-small-en"], world_of warm_cache).
Proof.
  split; [reflexivity|].
  apply (@cache_entry_is_shared_by_base_name (serve forbidden_response)
           decimal_int toy_tar "someone-else" "bge-small-en"
           "https://elsewhere/x.tar.gz" ["cache"] (world_of warm_cache)
           (<["config.json" := File [x7b; x7d]]> ∅) eq_refl).
  apply insert_non_empty.
Defined.



(** ** Requests *)

Lemma offline_pass_file_exists (c : M unit) :
  offline c → offline (pass_file_exists c).
Proof.
  intros Hc. apply offline_try_except; [exact Hc|].
  intros e. destruct (issubclass _ _); [apply offline_ret | apply offline_raise].
Qed.

Lemma offline_makedirs_rev (rname : list step) : offline (makedirs_rev rname).
Proof.
  induction rname as [|tail rhead IH]; [apply offline_raise|].
  cbn [makedirs_rev]. apply offline_bind; [apply offline_get_fs|]. intros root.
  apply offline_bind.
  - destruct (os_path_exists _ root); [apply offline_ret|].
    apply offline_bind; [|intros _; apply offline_ret].
    by apply offline_pass_file_exists.
  - intros made. destruct made; [apply offline_ret | apply offline_syscall].
Qed.

Lemma offline_extract_member (dest : path) (mem : tar_member) :
  offline (extract_member dest mem).
Proof.
  unfold extract_member.
  apply offline_bind; [apply offline_get_fs|]. intros root.
  apply offline_bind.
  { destruct (os_path_exists _ root);
      [apply offline_ret | apply offline_makedirs_rev]. }
  intros _. destruct mem as [name|name data].
  - apply offline_pass_file_exists, offline_syscall.
  - apply offline_bind; [apply offline_syscall|]. intros _.
    destruct data; [apply offline_ret | apply offline_syscall].
Qed.

Lemma offline_extract_members (dest : path) (mems : list tar_member) :
  offline (extract_members dest mems).
Proof.
  induction mems as [|mem rest IH]; simpl; [apply offline_ret|].
  apply offline_bind; [apply offline_extract_member | intros _; exact IH].
Qed.

Lemma offline_decompress `{Tarfile} (targz dest : path) :
  offline (decompress_to_cache targz dest).
Proof.
  unfold decompress_to_cache.
  apply offline_bind; [apply offline_get_fs|]. intros root.
  destruct (negb _); [apply offline_raise|].
  destruct (negb _); [apply offline_raise|].
  apply offline_bind; [|intros _; apply offline_ret].
  apply offline_try_except.
  - unfold tar_extractall.
    apply offline_bind; [apply offline_get_fs|]. intros root'.
    destruct (stat targz root') as [[bytes|m|]|]; try apply offline_raise.
    apply offline_bind; [apply offline_extract_members|]. intros _.
    destruct (failure _); [apply offline_raise | apply offline_ret].
  - intros e. destruct (issubclass _ _); [|apply offline_raise].
    apply offline_bind; [|intros _; apply offline_raise].
    destruct (str_in _ _); [apply offline_syscall | apply offline_ret].
Qed.

(** A download asks the server once, for its URL, unless the destination
    is already there: then it asks nothing. *)
Lemma download_requests `{Transport, PyInt} (url : string) (out : path)
    (show_progress : bool) (w : world) :
  requests (download_file_from_gcs url out show_progress w).2
  = if exists_ out (fs w) then requests w else requests w ++ [url].
Proof.
  unfold download_file_from_gcs. unfold bind at 1, get_fs.
  destruct (exists_ out (fs w)); [reflexivity|].
  unfold bind at 1, requests_get.
  destruct (http_get (requests w) url) as [r|e]; [|reflexivity].
  set (w1 := {| fs := fs w; observed := observed w;
                requests := requests w ++ [url]; log := log w;
                stdout := stdout w |}).
  change (requests w ++ [url]) with (requests w1).
  generalize w1. clear w1.
  change (offline
            (if (status_code r =? 403)%Z then raise permission_denied
             else
               let* total_size_in_bytes := total_size r in
               let* _ :=
                 if (total_size_in_bytes =? 0)%Z then
                   print ("Warning: Content-length header is missing or zero in the response from "
                          +:+ url +:+ ".")
                 else ret tt in
               let* _ := syscall out (os_open_wb out) in
               let* _ := write_chunks out (body r) in
               let* _ := match body_error r with
                         | Some e => raise e
                         | None => ret tt
                         end in
               ret out)).
  destruct (status_code r =? 403)%Z; [apply offline_raise|].
  apply offline_bind.
  { unfold total_size. destruct (content_length r) as [s|]; [|apply offline_ret].
    destruct (py_int s); [apply offline_ret | apply offline_raise]. }
  intros z. apply offline_bind.
  { destruct (z =? 0)%Z; [apply offline_print | apply offline_ret]. }
  intros _. apply offline_bind; [apply offline_syscall|].
  intros _. apply offline_bind; [apply offline_write_chunks|].
  intros _. apply offline_bind; [|intros _; apply offline_ret].
  destruct (body_error r); [apply offline_raise | apply offline_ret].
Qed.

(** ** download_file_from_gcs *)



(** X6: a download whose body breaks off raises the transport's error
    and leaves the chunks received so far in the destination file; the
    next call for that destination finds the file, takes the download for
    done and returns the path without asking the server. *)
Theorem download_cut_short_is_taken_for_complete `{Transport, PyInt}
    (url : string) (output_path : path) (show_progress : bool)
    (w : world) (r : response) (z : Z) (e : exn) :
  exists_ output_path (fs w) = false →
  is_dir (removelast output_path) (fs w) = true →
  http_get (requests w) url = Ok r →
  status_code r ≠ 403%Z →
  declared_length r z →
  body_error r = Some e →
  let first := download_file_from_gcs url output_path show_progress w in
  let second :=
    download_file_from_gcs url output_path show_progress first.2 in
  first.1 = Raise e
  ∧ stat output_path (fs first.2) = Some (File (concat (body r)))
  ∧ second = (Ok output_path, first.2).
Proof.
  intros Hex Hdir Hget Hst Hlen Herr first second.
  destruct (download_answered url output_path show_progress w r z)
    as (w' & Hrun & Hfile & _); auto.
  subst second first. rewrite Hrun, Herr. simpl.
  split; [reflexivity|]. split; [exact Hfile|].
  unfold download_file_from_gcs, bind, get_fs, exists_.
  by rewrite Hfile.
Qed.

(** X7: the [content-length] header only decides whether a warning line
    is printed (when it is missing or reads as zero); it is not compared
    with what arrives: whatever length is declared, the file holds the
    chunks that were delivered. *)
Theorem declared_length_only_warns `{Transport, PyInt}
    (url : string) (output_path : path) (show_progress : bool)
    (w : world) (r : response) (z : Z) :
  exists_ output_path (fs w) = false →
  is_dir (removelast output_path) (fs w) = true →
  http_get (requests w) url = Ok r →
  status_code r ≠ 403%Z →
  declared_length r z →
  let out := download_file_from_gcs url output_path show_progress w in
  stdout out.2
  = stdout w ++ (if (z =? 0)%Z then [length_warning url] else [])
  ∧ stat output_path (fs out.2) = Some (File (concat (body r)))
  ∧ log out.2 = log w.
Proof.
  intros Hex Hdir Hget Hst Hlen out.
  destruct (download_answered url output_path show_progress w r z)
    as (w' & Hrun & Hfile & _ & Hstd & Hlog & _); auto.
  subst out. rewrite Hrun. simpl. auto.
Qed.

Lemma download_cut_short_is_taken_for_complete_witness :
  body_error broken_response = Some connection_broken
  ∧ (@download_file_from_gcs (serve broken_response) decimal_int sample_url
       ["cache"; "fast-bge-small-en.tar.gz"] true (world_of empty_cache)).1
    = Raise connection_broken.
Proof.
  split; [reflexivity|].
  apply (@download_cut_short_is_taken_for_complete (serve broken_response)
           decimal_int sample_url ["cache"; "fast-bge-small-en.tar.gz"] true
           (world_of empty_cache) broken_response 4096%Z connection_broken);
    first [reflexivity | discriminate].
Defined.

Lemma declared_length_only_warns_witness :
  @declared_length decimal_int missing_response 0%Z
  ∧ stdout (@download_file_from_gcs (serve missing_response) decimal_int
              sample_url ["cache"; "fast-bge-small-en.tar.gz"] true
              (world_of empty_cache)).2
    = [length_warning sample_url].
Proof.
  split; [reflexivity|].
  apply (@declared_length_only_warns (serve missing_response) decimal_int
           sample_url ["cache"; "fast-bge-small-en.tar.gz"] true
           (world_of empty_cache) missing_response 0%Z);
    first [reflexivity | discriminate].
Defined.

(** X8: an acquisition sends at most one request, and only to the
    source URL; on a cache hit it sends none. *)
Theorem retrieve_asks_at_most_once `{Transport, PyInt, Tarfile}
    (model_name source_url : string) (cache_dir : path) (w : world) :
  let out := retrieve_model_gcs model_name source_url cache_dir w in
  requests out.2 = requests w
  ∨ requests out.2 = requests w ++ [source_url].
Proof.
  intros out. subst out.
  set (fast := fast_model_name model_name).
  assert (Hgen : ∀ x,
            x = requests
                  (retrieve_model_gcs model_name source_url cache_dir w).2 →
            x = requests w ∨ x = requests w ++ [source_url]);
    [|by apply Hgen].
  intros x Hx. unfold retrieve_model_gcs in Hx. fold fast in Hx.
  unfold bind at 1, get_fs in Hx.
  destruct (exists_ _ _ && _); [by left|].
  unfold bind at 1 in Hx.
  assert (HA : offline (if exists_ ((cache_dir ++ ["tmp"]) ++ [fast]) (fs w)
                        then syscall ((cache_dir ++ ["tmp"]) ++ [fast])
                               (os_rmtree ((cache_dir ++ ["tmp"]) ++ [fast]))
                        else ret tt)).
  { destruct (exists_ _ _); [apply offline_syscall | apply offline_ret]. }
  specialize (HA w).
  match type of HA with
  | requests (?c).2 = _ => destruct c as [[[]|e] wA]
  end; simpl in HA, Hx; [|left; congruence].
  unfold bind at 1 in Hx.
  pose proof (offline_syscall (cache_dir ++ ["tmp"])
                (mkdir_parents (cache_dir ++ ["tmp"])) wA) as HB.
  destruct (syscall _ _ wA) as [[[]|e] wB]; simpl in HB, Hx;
    [|left; congruence].
  unfold bind at 1 in Hx.
  pose proof (download_requests source_url
                (cache_dir ++ [fast +:+ ".tar.gz"]) true wB) as HC.
  assert (HC' : requests
                  (download_file_from_gcs source_url
                     (cache_dir ++ [fast +:+ ".tar.gz"]) true wB).2
                = requests w
                ∨ requests
                    (download_file_from_gcs source_url
                       (cache_dir ++ [fast +:+ ".tar.gz"]) true wB).2
                  = requests w ++ [source_url]).
  { rewrite HC. destruct (exists_ _ _); [left | right]; congruence. }
  clear HC.
  destruct (download_file_from_gcs _ _ _ wB) as [[pC|e] wC];
    simpl in HC', Hx; [|by subst x].
  assert (HK : offline
                 (let* _ := decompress_to_cache
                              (cache_dir ++ [fast +:+ ".tar.gz"])
                              (cache_dir ++ ["tmp"]) in
                  let* root := get_fs in
                  if negb (exists_ ((cache_dir ++ ["tmp"]) ++ [fast]) root)
                  then
                    raise (Exn AssertionError
                             ("Could not find "
                              +:+ render ((cache_dir ++ ["tmp"]) ++ [fast])
                              +:+ " in " +:+ render (cache_dir ++ ["tmp"])))
                  else
                    let* _ := syscall (cache_dir ++ [fast +:+ ".tar.gz"])
                                (os_unlink (cache_dir ++ [fast +:+ ".tar.gz"])) in
                    let* _ := syscall ((cache_dir ++ ["tmp"]) ++ [fast])
                                (os_rename ((cache_dir ++ ["tmp"]) ++ [fast])
                                   (cache_dir ++ [fast])) in
                    ret (cache_dir ++ [fast]))).
  { apply offline_bind; [apply offline_decompress|]. intros _.
    apply offline_bind; [apply offline_get_fs|]. intros root.
    destruct (negb _); [apply offline_raise|].
    apply offline_bind; [apply offline_syscall|]. intros _.
    apply offline_bind; [apply offline_syscall|]. intros _.
    apply offline_ret. }
  specialize (HK wC).
  assert (Hx' : x = requests wC) by (rewrite Hx; exact HK).
  rewrite Hx'. exact HC'.
Qed.

(** ** decompress_to_cache *)

(** X10: only a [TarError] is wrapped and cleaned up after.  Any other
    exception of the extraction (an [OSError] because a file is in the
    way, an [EOFError] of the decompressor) reaches the caller as it is,
    and nothing is removed, not even a destination with [tmp] in its
    path: the world is as the failed extraction left it. *)
Theorem decompress_lets_other_errors_through `{Tarfile}
    (targz_path cache_dir : path) (w w1 : world) (e : exn) :
  is_file targz_path (fs w) = true →
  endswith (render targz_path) ".tar.gz" = true →
  tar_extractall targz_path cache_dir w = (Raise e, w1) →
  issubclass (exn_cls e) TarError = false →
  decompress_to_cache targz_path cache_dir w = (Raise e, w1)
  ∧ (is_dir cache_dir (fs w) = true → is_dir cache_dir (fs w1) = true).
Proof.
  intros Hfile Hext Hrun Hcls. split.
  - unfold decompress_to_cache. unfold bind at 1, get_fs.
    rewrite Hfile, Hext. cbn [negb].
    unfold bind at 1, try_except. rewrite Hrun, Hcls. reflexivity.
  - intros Hdir.
    pose proof (tar_extractall_keeps_dest targz_path cache_dir w Hdir) as Hk.
    by rewrite Hrun in Hk.
Qed.

Lemma decompress_lets_other_errors_through_witness :
  str_in "tmp" (render ["var"; "tmp"]) = true
  ∧ (@decompress_to_cache toy_tar ["var"; "model.tar.gz"] ["var"; "tmp"]
       (world_of blocked_tree)).1
    = Raise (oserror ENOTDIR ["var"; "tmp"; "fast-bge-small-en"; "config.json"])
  ∧ is_dir ["var"; "tmp"]
      (fs (@decompress_to_cache toy_tar ["var"; "model.tar.gz"] ["var"; "tmp"]
             (world_of blocked_tree)).2) = true.
Proof.
  split; [reflexivity|].
  assert (Hrun : @tar_extractall toy_tar ["var"; "model.tar.gz"]
                   ["var"; "tmp"] (world_of blocked_tree)
                 = (Raise (oserror ENOTDIR
                             ["var"; "tmp"; "fast-bge-small-en"; "config.json"]),
                    (@tar_extractall toy_tar ["var"; "model.tar.gz"]
                       ["var"; "tmp"] (world_of blocked_tree)).2))
    by (vm_compute; reflexivity).
  destruct (@decompress_lets_other_errors_through toy_tar
              ["var"; "model.tar.gz"] ["var"; "tmp"] (world_of blocked_tree)
              _ _ eq_refl eq_refl Hrun eq_refl) as [Hdec Hkeep].
  rewrite Hdec. split; [reflexivity|]. apply Hkeep. reflexivity.
Defined.

Lemma os_rmtree_needs_dir (p : path) (n n' : node) :
  os_rmtree p n = inr n' → is_dir p n = true.
Proof.
  intros Hrm. apply at_entry_same in Hrm as (o & Ho & _).
  unfold is_dir. destruct (stat p n) as [[d|m|]|]; congruence.
Qed.

(** X11: the clean-up can hide the cause.  When [tarfile] fails, the
    destination has [tmp] in its path but is not a directory at that
    moment (it never existed and nothing was extracted, or a file bears
    its name), [shutil.rmtree] raises, and the caller gets that
    [OSError] instead of the [ValueError] that names the archive; nothing
    is removed. *)
Theorem decompress_cleanup_can_hide_the_cause `{Tarfile}
    (targz_path cache_dir : path) (w w1 : world) (e : exn) :
  is_file targz_path (fs w) = true →
  endswith (render targz_path) ".tar.gz" = true →
  tar_extractall targz_path cache_dir w = (Raise e, w1) →
  issubclass (exn_cls e) TarError = true →
  str_in "tmp" (render cache_dir) = true →
  is_dir cache_dir (fs w1) = false →
  ∃ en, decompress_to_cache targz_path cache_dir w
        = (Raise (oserror en cache_dir), w1)
        ∧ issubclass (exn_cls (oserror en cache_dir)) OSError = true
        ∧ oserror en cache_dir ≠ decompress_error targz_path e.
Proof.
  intros Hfile Hext Hrun Hcls Htmp Hnodir.
  destruct (os_rmtree cache_dir (fs w1)) as [en|fs'] eqn:Hrm.
  2:{ apply os_rmtree_needs_dir in Hrm. congruence. }
  exists en. split; [|split].
  - unfold decompress_to_cache. unfold bind at 1, get_fs.
    rewrite Hfile, Hext. cbn [negb].
    unfold bind at 1, try_except. rewrite Hrun, Hcls, Htmp.
    unfold bind at 1. by rewrite (syscall_raise _ _ _ _ Hrm).
  - by destruct en.
  - unfold oserror, decompress_error. destruct en; discriminate.
Qed.

Lemma decompress_cleanup_can_hide_the_cause_witness :
  is_dir ["var"; "tmp"; "staging"] (fs (world_of templates_tree)) = false
  ∧ ∃ en, @decompress_to_cache toy_tar ["var"; "model.tar.gz"]
            ["var"; "tmp"; "staging"] (world_of templates_tree)
          = (Raise (oserror en ["var"; "tmp"; "staging"]),
             world_of templates_tree).
Proof.
  split; [reflexivity|].
  destruct (@decompress_cleanup_can_hide_the_cause toy_tar
              ["var"; "model.tar.gz"] ["var"; "tmp"; "staging"]
              (world_of templates_tree) (world_of templates_tree) not_gzip
              eq_refl eq_refl eq_refl eq_refl eq_refl eq_refl)
    as (en & Hrun & _).
  exists en. exact Hrun.
Defined.

(** ** An archive file that is already there *)

Lemma mkdir_parents_child (d : path) (x : string) (n : node) :
  is_dir d n = true →
  stat (d ++ [x]) n = None ∨ is_dir (d ++ [x]) n = true →
  ∃ n', mkdir_parents (d ++ [x]) n = inr n' ∧ is_dir (d ++ [x]) n' = true.
Proof.
  intros Hd [Hnone | Hdir].
  2:{ exists n. split; [by apply mkdir_parents_existing | exact Hdir]. }
  assert (Hrun : ∃ n', mkdir_parents (d ++ [x]) n = inr n').
  { revert n Hd Hnone. induction d as [|y d IH]; intros n Hd Hnone.
    - unfold is_dir in Hd. simpl in Hd. destruct n as [b|m|]; try discriminate.
      simpl in Hnone. simpl.
      destruct (m !! x) as [c|] eqn:Hx; [discriminate|]. simpl. eauto.
    - unfold is_dir in Hd. destruct n as [b|m|]; try discriminate.
      rewrite stat_cons in Hd. simpl app in *. rewrite stat_cons in Hnone.
      destruct (m !! y) as [c|] eqn:Hy; [|discriminate]. simpl in Hd, Hnone.
      destruct (IH c Hd Hnone) as (c' & Hc'). simpl. rewrite Hy. simpl.
      rewrite Hc'. eauto. }
  destruct Hrun as (n' & Hrun). exists n'. split; [exact Hrun|].
  eapply mkdir_parents_is_dir, Hrun.
Qed.

(** The steps of an acquisition after the staging area is set up. *)
Lemma retrieve_from_staging_area `{Transport, PyInt, Tarfile}
    (model_name source_url : string) (cache_dir : path) (w : world) :
  let fast := fast_model_name model_name in
  let final := cache_dir ++ [fast] in
  let tmp := cache_dir ++ ["tmp"] in
  let staging := tmp ++ [fast] in
  let tarball := cache_dir ++ [fast +:+ ".tar.gz"] in
  stat final (fs w) = None →
  is_dir cache_dir (fs w) = true →
  stat tmp (fs w) = None
  ∨ (is_dir tmp (fs w) = true
     ∧ (stat staging (fs w) = None ∨ is_dir staging (fs w) = true)) →
  ∃ wB,
    is_dir tmp (fs wB) = true
    ∧ stat final (fs wB) = None
    ∧ stat tarball (fs wB) = stat tarball (fs w)
    ∧ requests wB = requests w
    ∧ retrieve_model_gcs model_name source_url cache_dir w
      = (let* _ := download_file_from_gcs source_url tarball true in
         let* _ := decompress_to_cache tarball tmp in
         let* root := get_fs in
         if negb (exists_ staging root) then
           raise (Exn AssertionError
                    ("Could not find " +:+ render staging +:+ " in "
                     +:+ render tmp))
         else
           let* _ := syscall tarball (os_unlink tarball) in
           let* _ := syscall staging (os_rename staging final) in
           ret final) wB.
Proof.
  intros fast final tmp staging tarball Hfinal Hcache Harea.
  assert (Hne1 : "tmp" ≠ fast +:+ ".tar.gz").
  { intros E. symmetry in E. revert E. apply targz_not_tmp. }
  assert (Hne2 : "tmp" ≠ fast).
  { intros E. symmetry in E. revert E. apply fast_not_tmp. }
  assert (Hstaging : staging = cache_dir ++ "tmp" :: [fast]).
  { unfold staging, tmp. by rewrite <- app_assoc. }
  (* the stale staging directory, if any *)
  assert (HA : ∃ wA,
            (if exists_ staging (fs w)
             then syscall staging (os_rmtree staging) else ret tt) w
            = (Ok tt, wA)
            ∧ (stat tmp (fs wA) = None ∨ is_dir tmp (fs wA) = true)
            ∧ is_dir cache_dir (fs wA) = true
            ∧ stat final (fs wA) = None
            ∧ stat tarball (fs wA) = stat tarball (fs w)
            ∧ requests wA = requests w).
  { destruct Harea as [Hnone | [Hdir [Hnone | Hst]]].
    - exists w. unfold exists_, staging. rewrite (stat_below_none _ _ _ Hnone).
      auto 10.
    - exists w. unfold exists_. rewrite Hnone. auto 10.
    - destruct (os_rmtree_dir staging (fs w)) as (fs1 & Hrm & Hgone); auto.
      { unfold staging. by destruct tmp. }
      assert (Hex : exists_ staging (fs w) = true).
      { unfold is_dir in Hst. unfold exists_.
        by destruct (stat staging (fs w)). }
      exists (commit fs1 w). rewrite Hex, (syscall_ok _ _ _ _ Hrm). simpl.
      split; [reflexivity|]. split.
      { right. apply (at_entry_above tmp [fast]) in Hrm; [|discriminate].
        apply Hrm. }
      split.
      { pose proof Hrm as Hrm'. rewrite Hstaging in Hrm'.
        apply (at_entry_above cache_dir ["tmp"; fast]) in Hrm';
          [|discriminate].
        apply Hrm'. }
      rewrite Hstaging in Hrm. split; [|split; [|reflexivity]].
      + rewrite <- Hfinal.
        eapply (at_entry_frame_diverge cache_dir [fast] []); eauto.
      + eapply (at_entry_frame_diverge cache_dir [fast] []); eauto. }
  destruct HA as (wA & HrunA & HtmpA & HcacheA & HfinalA & HtarA & HreqA).
  (* the staging area's parent *)
  destruct (mkdir_parents_child cache_dir "tmp" (fs wA) HcacheA HtmpA)
    as (fsB & Hmk & HtmpB).
  exists (commit fsB wA). simpl.
  split; [exact HtmpB|]. split.
  { rewrite <- HfinalA. eapply mkdir_parents_frame; eauto.
    apply (diverge_l cache_dir [] []). congruence. }
  split.
  { rewrite <- HtarA. eapply mkdir_parents_frame; eauto.
    apply (diverge_l cache_dir [] []). congruence. }
  split; [exact HreqA|].
  unfold retrieve_model_gcs.
  fold fast. fold final. fold tmp. fold staging. fold tarball.
  unfold bind at 1, get_fs. rewrite (hit_check_absent _ _ Hfinal).
  erewrite bind_ok by exact HrunA.
  erewrite bind_ok by (apply syscall_ok; exact Hmk).
  reflexivity.
Qed.

(** An archive file that [tarfile] rejects at once, with the staging
    area in place: the staging area is removed and the error names the
    archive. *)
Lemma decompress_rejected `{Tarfile} (cache_dir : path) (name : string)
    (w : world) (bytes : list byte) (e : exn) :
  let tmp := cache_dir ++ ["tmp"] in
  let tarball := cache_dir ++ [name +:+ ".tar.gz"] in
  stat tarball (fs w) = Some (File bytes) →
  tar_read bytes = TarImage [] (Some e) →
  issubclass (exn_cls e) TarError = true →
  is_dir tmp (fs w) = true →
  ∃ fs', os_rmtree tmp (fs w) = inr fs'
         ∧ stat tmp fs' = None
         ∧ decompress_to_cache tarball tmp w
           = (Raise (decompress_error tarball e), commit fs' w).
Proof.
  intros tmp tarball Hfile Himage Hcls Hdir.
  destruct (os_rmtree_dir tmp (fs w)) as (fs' & Hrm & Hgone); auto.
  { unfold tmp. by destruct cache_dir. }
  exists fs'. split; [exact Hrm|]. split; [exact Hgone|].
  pose proof (targz_path_endswith cache_dir name) as Hends.
  fold tarball in Hends.
  unfold decompress_to_cache. unfold bind at 1, get_fs, is_file.
  rewrite Hfile, Hends. cbn [negb].
  unfold bind at 1, try_except, tar_extractall, bind at 1, get_fs.
  rewrite Hfile, Himage. simpl. rewrite Hcls.
  rewrite (segment_in_render "tmp" tmp).
  2:{ unfold tmp. apply elem_of_app. right. left. }
  unfold bind. rewrite (syscall_ok _ _ _ _ Hrm). reflexivity.
Qed.

Lemma rejected_archive_step `{Transport, PyInt, Tarfile}
    (model_name source_url : string) (cache_dir : path) (w : world)
    (bytes : list byte) (e : exn) :
  let fast := fast_model_name model_name in
  let final := cache_dir ++ [fast] in
  let tmp := cache_dir ++ ["tmp"] in
  let staging := tmp ++ [fast] in
  let tarball := cache_dir ++ [fast +:+ ".tar.gz"] in
  stat final (fs w) = None →
  stat tarball (fs w) = Some (File bytes) →
  tar_read bytes = TarImage [] (Some e) →
  issubclass (exn_cls e) TarError = true →
  stat tmp (fs w) = None
  ∨ (is_dir tmp (fs w) = true
     ∧ (stat staging (fs w) = None ∨ is_dir staging (fs w) = true)) →
  ∃ w', retrieve_model_gcs model_name source_url cache_dir w
        = (Raise (decompress_error tarball e), w')
        ∧ requests w' = requests w
        ∧ stat tarball (fs w') = Some (File bytes)
        ∧ stat final (fs w') = None
        ∧ stat tmp (fs w') = None.
Proof.
  intros fast final tmp staging tarball Hfinal Hfile Himage Hcls Harea.
  assert (Hcache : is_dir cache_dir (fs w) = true).
  { apply (stat_parent_is_dir tarball) in Hfile; [|by destruct cache_dir].
    unfold tarball in Hfile. by rewrite removelast_last in Hfile. }
  destruct (retrieve_from_staging_area model_name source_url cache_dir w
              Hfinal Hcache Harea)
    as (wB & HtmpB & HfinalB & HtarB & HreqB & Hrun).
  fold fast tarball in HtarB. rewrite Hfile in HtarB.
  destruct (decompress_rejected cache_dir fast wB bytes e HtarB Himage Hcls
              HtmpB) as (fs' & Hrm & Hgone & Hdec).
  assert (Hne1 : "tmp" ≠ fast +:+ ".tar.gz").
  { intros E. symmetry in E. revert E. apply targz_not_tmp. }
  assert (Hne2 : "tmp" ≠ fast).
  { intros E. symmetry in E. revert E. apply fast_not_tmp. }
  exists (commit fs' wB). split; [|split; [exact HreqB|split; [|split]]].
  - rewrite Hrun.
    erewrite bind_ok.
    2:{ unfold download_file_from_gcs, bind, get_fs, exists_.
        fold fast tarball. rewrite HtarB. reflexivity. }
    erewrite bind_raise by exact Hdec. reflexivity.
  - simpl. rewrite <- HtarB.
    eapply (at_entry_frame_diverge cache_dir [] []); eauto.
  - simpl. rewrite <- HfinalB.
    eapply (at_entry_frame_diverge cache_dir [] []); eauto.
  - exact Hgone.
Qed.

(** X12: an archive file that is already at the cache root is never
    fetched again, even when [tarfile] rejects it.  With no final
    directory, such a file in place, and a staging area
    [cache_dir/tmp] that is absent or is a directory (in which the
    staging directory is absent or a directory), the acquisition raises
    the [ValueError] that names the archive without asking the server,
    removes the staging area [cache_dir/tmp] and leaves the archive file
    as it is; so the next call fails in the same way, again without a
    request. *)
Theorem rejected_archive_is_never_replaced `{Transport, PyInt, Tarfile}
    (model_name source_url : string) (cache_dir : path) (w : world)
    (bytes : list byte) (e : exn) :
  stat (cache_dir ++ [fast_model_name model_name]) (fs w) = None →
  stat (cache_dir ++ [fast_model_name model_name +:+ ".tar.gz"]) (fs w)
  = Some (File bytes) →
  tar_read bytes = TarImage [] (Some e) →
  issubclass (exn_cls e) TarError = true →
  stat (cache_dir ++ ["tmp"]) (fs w) = None
  ∨ (is_dir (cache_dir ++ ["tmp"]) (fs w) = true
     ∧ (stat ((cache_dir ++ ["tmp"]) ++ [fast_model_name model_name]) (fs w)
        = None
        ∨ is_dir ((cache_dir ++ ["tmp"]) ++ [fast_model_name model_name])
            (fs w) = true)) →
  let tarball := cache_dir ++ [fast_model_name model_name +:+ ".tar.gz"] in
  let first := retrieve_model_gcs model_name source_url cache_dir w in
  let second := retrieve_model_gcs model_name source_url cache_dir first.2 in
  first.1 = Raise (decompress_error tarball e)
  ∧ requests first.2 = requests w
  ∧ stat (cache_dir ++ ["tmp"]) (fs first.2) = None
  ∧ stat tarball (fs first.2) = Some (File bytes)
  ∧ second.1 = Raise (decompress_error tarball e)
  ∧ requests second.2 = requests w
  ∧ stat (cache_dir ++ ["tmp"]) (fs second.2) = None
  ∧ stat tarball (fs second.2) = Some (File bytes)
  ∧ stat (cache_dir ++ [fast_model_name model_name]) (fs second.2) = None.
Proof.
  intros Hfinal Hfile Himage Hcls Harea tarball first second.
  destruct (rejected_archive_step model_name source_url cache_dir w bytes e
              Hfinal Hfile Himage Hcls Harea)
    as (w1 & Hrun1 & Hreq1 & Hfile1 & Hfinal1 & Htmp1).
  destruct (rejected_archive_step model_name source_url cache_dir w1 bytes e
              Hfinal1 Hfile1 Himage Hcls (or_introl Htmp1))
    as (w2 & Hrun2 & Hreq2 & Hfile2 & Hfinal2 & Htmp2).
  subst second first. rewrite Hrun1. simpl. rewrite Hrun2. simpl.
  repeat split; auto. congruence.
Qed.

(** X13: an answer that is no archive spoils the cache entry.  When the
    server answers with a status other than 403 and a body [tarfile]
    rejects (the error page of a 404, say), the acquisition writes that
    body to the archive file, raises the [ValueError] and leaves the
    file behind; the next call makes no request at all and raises the
    same error. *)
Theorem rejected_download_spoils_the_cache `{Transport, PyInt, Tarfile}
    (model_name source_url : string) (cache_dir : path) (w : world)
    (r : response) (z : Z) (e : exn) :
  stat (cache_dir ++ [fast_model_name model_name]) (fs w) = None →
  is_dir cache_dir (fs w) = true →
  stat (cache_dir ++ ["tmp"]) (fs w) = None
  ∨ (is_dir (cache_dir ++ ["tmp"]) (fs w) = true
     ∧ (stat ((cache_dir ++ ["tmp"]) ++ [fast_model_name model_name]) (fs w)
        = None
        ∨ is_dir ((cache_dir ++ ["tmp"]) ++ [fast_model_name model_name])
            (fs w) = true)) →
  stat (cache_dir ++ [fast_model_name model_name +:+ ".tar.gz"]) (fs w)
  = None →
  http_get (requests w) source_url = Ok r →
  status_code r ≠ 403%Z →
  declared_length r z →
  body_error r = None →
  tar_read (concat (body r)) = TarImage [] (Some e) →
  issubclass (exn_cls e) TarError = true →
  let tarball := cache_dir ++ [fast_model_name model_name +:+ ".tar.gz"] in
  let first := retrieve_model_gcs model_name source_url cache_dir w in
  let second := retrieve_model_gcs model_name source_url cache_dir first.2 in
  first.1 = Raise (decompress_error tarball e)
  ∧ requests first.2 = requests w ++ [source_url]
  ∧ stat tarball (fs first.2) = Some (File (concat (body r)))
  ∧ second.1 = Raise (decompress_error tarball e)
  ∧ requests second.2 = requests first.2
  ∧ stat (cache_dir ++ [fast_model_name model_name]) (fs second.2) = None.
Proof.
  intros Hfinal Hcache Harea Hnone Hget Hst Hlen Hbody Himage Hcls
    tarball first second.
  set (fast := fast_model_name model_name) in *.
  assert (Hne1 : "tmp" ≠ fast +:+ ".tar.gz").
  { intros E. symmetry in E. revert E. apply targz_not_tmp. }
  assert (Hne2 : "tmp" ≠ fast).
  { intros E. symmetry in E. revert E. apply fast_not_tmp. }
  assert (Hne3 : fast ≠ fast +:+ ".tar.gz") by apply fast_not_targz.
  destruct (retrieve_from_staging_area model_name source_url cache_dir w
              Hfinal Hcache Harea)
    as (wB & HtmpB & HfinalB & HtarB & HreqB & Hrun).
  fold fast tarball in HtarB, HfinalB, Hrun. fold tarball in Hnone.
  rewrite Hnone in HtarB.
  destruct (download_answered source_url tarball true wB r z)
    as (wC & Hdl & HfileC & HreqC & _ & _ & HframeC); auto.
  { unfold exists_. by rewrite HtarB. }
  { unfold tarball. rewrite removelast_last. by eapply is_dir_parent. }
  { by rewrite HreqB. }
  rewrite Hbody in Hdl.
  assert (HtmpC : is_dir (cache_dir ++ ["tmp"]) (fs wC) = true).
  { unfold is_dir. rewrite HframeC; [exact HtmpB| |];
      apply (diverge_l cache_dir [] []); congruence. }
  assert (HfinalC : stat (cache_dir ++ [fast]) (fs wC) = None).
  { rewrite HframeC; [exact HfinalB| |];
      apply (diverge_l cache_dir [] []); congruence. }
  destruct (decompress_rejected cache_dir fast wC (concat (body r)) e HfileC
              Himage Hcls HtmpC) as (fs' & Hrm & Hgone & Hdec).
  assert (Hrun1 : retrieve_model_gcs model_name source_url cache_dir w
                  = (Raise (decompress_error tarball e), commit fs' wC)).
  { rewrite Hrun. erewrite bind_ok by exact Hdl.
    erewrite bind_raise by exact Hdec. reflexivity. }
  assert (Hfile1 : stat tarball (fs (commit fs' wC))
                   = Some (File (concat (body r)))).
  { simpl. rewrite <- HfileC.
    eapply (at_entry_frame_diverge cache_dir [] []); eauto. }
  assert (Hfinal1 : stat (cache_dir ++ [fast]) (fs (commit fs' wC)) = None).
  { simpl. rewrite <- HfinalC.
    eapply (at_entry_frame_diverge cache_dir [] []); eauto. }
  destruct (rejected_archive_step model_name source_url cache_dir
              (commit fs' wC) (concat (body r)) e Hfinal1 Hfile1 Himage Hcls
              (or_introl Hgone))
    as (w2 & Hrun2 & Hreq2 & _ & Hfinal2 & _).
  subst second first. rewrite Hrun1. simpl. rewrite Hrun2. simpl.
  split; [reflexivity|]. split; [by rewrite HreqC, HreqB|].
  split; [exact Hfile1|]. split; [reflexivity|].
  split; [exact Hreq2 | exact Hfinal2].
Qed.

Lemma rejected_archive_is_never_replaced_witness :
  stat ["cache"; "fast-bge-small-en.tar.gz"] (fs (world_of spoiled_cache))
  = Some (File [x3c; x68; x31; x3e])
  ∧ stat ["cache"; "tmp"] (fs (world_of spoiled_cache)) = None
  ∧ (@retrieve_model_gcs (serve archive_response) decimal_int toy_tar
       "BAAI/bge-small-en" sample_url ["cache"] (world_of spoiled_cache)).1
    = Raise (decompress_error ["cache"; "fast-bge-small-en.tar.gz"] not_gzip)
  ∧ stat ["cache"; "tmp"]
      (fs (@retrieve_model_gcs (serve archive_response) decimal_int toy_tar
             "BAAI/bge-small-en" sample_url ["cache"]
             (world_of spoiled_cache)).2)
    = None.
Proof.
  split; [reflexivity|]. split; [reflexivity|].
  destruct (@rejected_archive_is_never_replaced (serve archive_response)
              decimal_int toy_tar "BAAI/bge-small-en" sample_url ["cache"]
              (world_of spoiled_cache) [x3c; x68; x31; x3e] not_gzip
              eq_refl eq_refl eq_refl eq_refl (or_introl eq_refl))
    as (Hraise & _ & Htmp & _).
  split; [exact Hraise | exact Htmp].
Defined.

Lemma rejected_download_spoils_the_cache_witness :
  status_code missing_response ≠ 403%Z
  ∧ requests
      (@retrieve_model_gcs (serve missing_response) decimal_int toy_tar
         "BAAI/bge-small-en" sample_url ["cache"]
         (@retrieve_model_gcs (serve missing_response) decimal_int toy_tar
            "BAAI/bge-small-en" sample_url ["cache"]
            (world_of empty_cache)).2).2
    = requests
        (@retrieve_model_gcs (serve missing_response) decimal_int toy_tar
           "BAAI/bge-small-en" sample_url ["cache"]
           (world_of empty_cache)).2.
Proof.
  assert (Hst : status_code missing_response ≠ 403%Z) by discriminate.
  split; [exact Hst|].
  apply (@rejected_download_spoils_the_cache (serve missing_response)
           decimal_int toy_tar "BAAI/bge-small-en" sample_url ["cache"]
           (world_of empty_cache) missing_response 0%Z not_gzip
           eq_refl eq_refl (or_introl eq_refl) eq_refl eq_refl Hst
           eq_refl eq_refl eq_refl eq_refl).
Defined.

(** ** download_model *)

(** X14: a description without a usable source ([sources] missing, or
    [hf] and [url] both missing or empty) makes [download_model] raise
    the [ValueError] that names the model, before the hub or the server
    is asked and without any change of the world. *)
Theorem download_model_without_source `{Transport, PyInt, Tarfile, Hub}
    (m : model_description) (cache_dir : path) (w : world) :
  truthy (default ∅ (sources m) !! "hf") = false →
  truthy (default ∅ (sources m) !! "url") = false →
  download_model m cache_dir w = (Raise (no_source m), w)
  ∧ str_in (model m) (exn_msg (no_source m)) = true.
Proof.
  intros Hhf Hurl. split.
  - unfold download_model. rewrite Hhf, Hurl. reflexivity.
  - unfold no_source. cbn [exn_msg].
    apply str_in_later, str_in_here.
Qed.

Lemma download_model_without_source_witness :
  truthy (default ∅ (sources sourceless) !! "hf") = false
  ∧ @download_model (serve archive_response) decimal_int toy_tar
      (hub_raising missing_key) sourceless ["cache"] (world_of empty_cache)
    = (Raise (no_source sourceless), world_of empty_cache).
Proof.
  split; [reflexivity|].
  apply (@download_model_without_source (serve archive_response) decimal_int
           toy_tar (hub_raising missing_key) sourceless ["cache"]
           (world_of empty_cache) eq_refl eq_refl).
Defined.

(** X15: with a repository source and no archive source, a repository
    failure of a caught class does not reach the caller: one line is
    written to the log, which is the text of the source with the message
    of the exception in it, and what is raised is the [ValueError] "from
    any source", whose class and message say nothing of the cause.  No
    request is made. *)
Theorem repository_failure_without_fallback `{Transport, PyInt, Tarfile, Hub}
    (m : model_description) (cache_dir : path) (w w1 : world) (hf : string)
    (e : exn) :
  default ∅ (sources m) !! "hf" = Some hf → hf ≠ "" →
  truthy (default ∅ (sources m) !! "url") = false →
  download_files_from_huggingface hf cache_dir w = (Raise e, w1) →
  caught_by [EnvironmentError; RepositoryNotFoundError; ValueError] e = true →
  let out := download_model m cache_dir w in
  out.1 = Raise (no_source m)
  ∧ log out.2 = log w1 ++ [fallback_message e]
  ∧ fallback_message e
    = "Could not download model from HuggingFace: " +:+ exn_msg e
      +:+ "Falling back to other sources."
  ∧ str_in (exn_msg e) (fallback_message e) = true
  ∧ no_source m
    = Exn ValueError
        ("Could not download model " +:+ model m +:+ " from any source.")
  ∧ fs out.2 = fs w1
  ∧ requests out.2 = requests w1.
Proof.
  intros Hhf Hne Hurl Hrun Hcaught out. subst out.
  rewrite (download_model_hub_raises m cache_dir w w1 hf e Hhf Hne Hrun).
  rewrite Hcaught, Hurl.
  split; [reflexivity|]. split; [reflexivity|]. split; [reflexivity|].
  split; [apply str_in_middle|]. split; [reflexivity|].
  split; reflexivity.
Qed.

Lemma repository_failure_without_fallback_witness :
  caught_by [EnvironmentError; RepositoryNotFoundError; ValueError]
    permission_refused = true
  ∧ (@download_model (serve archive_response) decimal_int toy_tar
       (hub_raising permission_refused) repository_only ["cache"]
       (world_of empty_cache)).1
    = Raise (no_source repository_only)
  ∧ log (@download_model (serve archive_response) decimal_int toy_tar
           (hub_raising permission_refused) repository_only ["cache"]
           (world_of empty_cache)).2
    = log (world_of empty_cache) ++ [fallback_message permission_refused]
  ∧ str_in (exn_msg permission_refused)
      (fallback_message permission_refused) = true.
Proof.
  split; [reflexivity|].
  destruct (@repository_failure_without_fallback (serve archive_response)
              decimal_int toy_tar (hub_raising permission_refused)
              repository_only ["cache"] (world_of empty_cache)
              (world_of empty_cache) "qdrant/bge-small-en-onnx"
              permission_refused eq_refl ltac:(discriminate) eq_refl eq_refl
              eq_refl)
    as (Hraise & Hlog & _ & Hin & _).
  split; [exact Hraise|]. split; [exact Hlog | exact Hin].
Defined.

(** ** TextEmbedding *)

Lemma list_supported_models_concat {T K : Type} `{!TextEmbeddingClasses T K} :
  list_supported_models
  = class_supported_models OnnxTextEmbedding
    ++ class_supported_models E5OnnxEmbedding
    ++ class_supported_models JinaOnnxEmbedding.
Proof.
  unfold list_supported_models, EMBEDDINGS_REGISTRY. simpl.
  by rewrite <- app_assoc.
Qed.

Lemma lists_model_spec {T K : Type} (c : embedding_class T K)
    (model_name : string) :
  lists_model c model_name = true
  ↔ ∃ m, m ∈ class_supported_models c ∧ model m = model_name.
Proof.
  unfold lists_model. rewrite existsb_exists. split.
  - intros (m & Hin & Heq). apply String.eqb_eq in Heq.
    exists m. split; [by apply list_elem_of_In | done].
  - intros (m & Hin & Heq). exists m.
    split; [by apply list_elem_of_In | by apply String.eqb_eq].
Qed.

Lemma init_loop_none {T K : Type} (registry : list (embedding_class T K))
    (model_name : string) (cache_dir : option path) (threads : option Z)
    (kwargs : K) :
  Forall (λ c, lists_model c model_name = false) registry →
  init_loop registry model_name cache_dir threads kwargs
  = raise (unsupported_model model_name).
Proof.
  induction 1 as [|c rest Hc _ IH]; [reflexivity|].
  simpl. by rewrite Hc.
Qed.

Lemma init_loop_first {T K : Type} (pre post : list (embedding_class T K))
    (c : embedding_class T K) (model_name : string)
    (cache_dir : option path) (threads : option Z) (kwargs : K) :
  Forall (λ c', lists_model c' model_name = false) pre →
  lists_model c model_name = true →
  init_loop (pre ++ c :: post) model_name cache_dir threads kwargs
  = (let* instance := class_new c model_name cache_dir threads kwargs in
     ret (TextEmbedding model_name cache_dir threads instance)).
Proof.
  intros Hpre Hc. induction Hpre as [|c' pre Hc' _ IH]; simpl.
  - by rewrite Hc.
  - by rewrite Hc'.
Qed.

Lemma first_listing {T K : Type} (registry : list (embedding_class T K))
    (model_name : string) :
  Exists (λ c, lists_model c model_name = true) registry →
  ∃ pre c post,
    registry = pre ++ c :: post
    ∧ Forall (λ c', lists_model c' model_name = false) pre
    ∧ lists_model c model_name = true.
Proof.
  induction registry as [|c rest IH]; intros Hex; [inversion Hex|].
  destruct (lists_model c model_name) eqn:Hc.
  - exists [], c, rest. auto.
  - inversion Hex as [? ? Hhere | ? ? Hlater]; subst; [congruence|].
    destruct (IH Hlater) as (pre & c0 & post & -> & Hpre & Hc0).
    exists (c :: pre), c0, post. auto.
Qed.

(** X17: a model name that no entry of [list_supported_models()] bears
    is refused by [TextEmbedding.__init__] with the [ValueError] that
    names it; no embedding class is instantiated and the world is
    untouched. *)
Theorem unsupported_model_is_refused {T K : Type} `{!TextEmbeddingClasses T K}
    (model_name : string) (cache_dir : option path) (threads : option Z)
    (kwargs : K) (w : world) :
  (∀ m, m ∈ list_supported_models → model m ≠ model_name) →
  TextEmbedding_init model_name cache_dir threads kwargs w
  = (Raise (unsupported_model model_name), w)
  ∧ str_in model_name (exn_msg (unsupported_model model_name)) = true.
Proof.
  intros Hnone. split.
  - unfold TextEmbedding_init. rewrite init_loop_none; [reflexivity|].
    rewrite list_supported_models_concat in Hnone.
    assert (Hno : ∀ c : embedding_class T K,
                    class_supported_models c ⊆ class_supported_models
                         OnnxTextEmbedding
                         ++ class_supported_models E5OnnxEmbedding
                         ++ class_supported_models JinaOnnxEmbedding →
                       lists_model c model_name = false).
    { intros c Hsub. destruct (lists_model c model_name) eqn:Hc; [|done].
      apply lists_model_spec in Hc as (m & Hin & Heq).
      exfalso. apply (Hnone m); [by apply Hsub | exact Heq]. }
    unfold EMBEDDINGS_REGISTRY. repeat constructor; apply Hno.
    + intros m Hm. apply elem_of_app. by left.
    + intros m Hm. apply elem_of_app. right. apply elem_of_app. by left.
    + intros m Hm. apply elem_of_app. right. apply elem_of_app. by right.
  - unfold unsupported_model. cbn [exn_msg].
    apply str_in_later, str_in_here.
Qed.

Lemma unsupported_model_is_refused_witness :
  ("BAAI/bge-m3" ∉ model <$> @list_supported_models _ _ sample_classes)
  ∧ @TextEmbedding_init _ _ sample_classes "BAAI/bge-m3" None None tt
      (world_of empty_cache)
    = (Raise (unsupported_model "BAAI/bge-m3"), world_of empty_cache).
Proof.
  assert (Hnot : ∀ m, m ∈ @list_supported_models _ _ sample_classes →
                      model m ≠ "BAAI/bge-m3").
  { intros m Hm. vm_compute in Hm.
    repeat (apply elem_of_cons in Hm as [-> | Hm]; [discriminate|]).
    inversion Hm. }
  split.
  - intros Hin. apply list_elem_of_fmap in Hin as (m & Heq & Hm).
    by apply (Hnot m Hm).
  - apply (@unsupported_model_is_refused _ _ sample_classes "BAAI/bge-m3"
             None None tt (world_of empty_cache) Hnot).
Defined.

(** X18: a model name that an entry of [list_supported_models()] bears
    is handed by [TextEmbedding.__init__] to a registered class that
    lists it, the first one in registry order when several do: the
    result is that class's constructor run on the same arguments, its
    instance stored as [model], its exception raised as it is. *)
Theorem supported_model_goes_to_first_class {T K : Type}
    `{!TextEmbeddingClasses T K}
    (model_name : string) (cache_dir : option path) (threads : option Z)
    (kwargs : K) (w : world) (m : model_description) :
  m ∈ list_supported_models → model m = model_name →
  ∃ pre c post,
    EMBEDDINGS_REGISTRY = pre ++ c :: post
    ∧ Forall (λ c', lists_model c' model_name = false) pre
    ∧ lists_model c model_name = true
    ∧ TextEmbedding_init model_name cache_dir threads kwargs w
      = match class_new c model_name cache_dir threads kwargs w with
        | (Ok instance, w1) =>
            (Ok (TextEmbedding model_name cache_dir threads instance), w1)
        | (Raise e, w1) => (Raise e, w1)
        end.
Proof.
  intros Hm Hname.
  destruct (first_listing EMBEDDINGS_REGISTRY model_name)
    as (pre & c & post & Hreg & Hpre & Hc).
  { rewrite list_supported_models_concat in Hm.
    unfold EMBEDDINGS_REGISTRY.
    apply elem_of_app in Hm as [Hm | Hm];
      [|apply elem_of_app in Hm as [Hm | Hm]].
    - apply Exists_cons_hd, lists_model_spec. eauto.
    - apply Exists_cons_tl, Exists_cons_hd, lists_model_spec. eauto.
    - apply Exists_cons_tl, Exists_cons_tl, Exists_cons_hd, lists_model_spec.
      eauto. }
  exists pre, c, post. split; [exact Hreg|]. split; [exact Hpre|].
  split; [exact Hc|].
  unfold TextEmbedding_init. rewrite Hreg.
  rewrite (init_loop_first pre post c) by assumption.
  unfold bind. destruct (class_new c _ _ _ _ w) as [[i|e] w1]; reflexivity.
Qed.

Lemma supported_model_goes_to_first_class_witness :
  entry "BAAI/bge-base-en" ∈ @list_supported_models _ _ sample_classes
  ∧ ∃ pre c post,
      @EMBEDDINGS_REGISTRY _ _ sample_classes = pre ++ c :: post
      ∧ lists_model c "BAAI/bge-base-en" = true
      ∧ Forall (λ c', lists_model c' "BAAI/bge-base-en" = false) pre.
Proof.
  assert (Hin : entry "BAAI/bge-base-en"
                ∈ @list_supported_models _ _ sample_classes).
  { vm_compute. right. left. }
  split; [exact Hin|].
  destruct (@supported_model_goes_to_first_class _ _ sample_classes
              "BAAI/bge-base-en" None None tt (world_of empty_cache)
              (entry "BAAI/bge-base-en") Hin eq_refl)
    as (pre & c & post & Hreg & Hpre & Hc & _).
  exists pre, c, post. auto.
Defined.

(** On the sample classes the model two classes list goes to the first
    of them. *)
Example shared_model_goes_to_onnx :
  (@TextEmbedding_init _ _ sample_classes "BAAI/bge-base-en" None None tt
     (world_of empty_cache)).1
  = Ok (TextEmbedding "BAAI/bge-base-en" None None "onnx:BAAI/bge-base-en").
Proof. reflexivity. Qed.
